(** * Rebinning engine of becquerel ([becquerel/core/rebin.py])

    A shallow embedding of the validators, the two rebinning kernels and the
    public [rebin] dispatcher, with the properties of the specification
    stated and proved over it.

    Numbers.  The source computes on IEEE binary64 values.  The embedding
    computes on exact rationals ([Q]); two values that the source compares
    "within floating-point tolerance" are compared here with [Qeq].  The only
    non-finite values the source itself introduces are the [-inf]/[+inf]
    sentinels appended to the output edges; they are the [NInf]/[PInf]
    constructors of [ext].  NaN and infinite inputs are outside the model.
    Integer counts (int64 in the source) are unbounded [Z]. *)

From Stdlib Require Import String Ascii.
From Stdlib Require Import ZArith QArith Qround Qabs Lqa Lia List Bool.
Import ListNotations.

(* ================================================================= *)
(** ** Exceptions and warnings *)

(** [RebinError] is the only exception class of the module; what the
    specification calls a kind of error is decided by the message. *)
Inductive rebin_message : Type :=
| MsgNotND (arr_name : string)          (* '{}({}) is not {}D' *)
| MsgShape (arr0_name arr1_name : string)
                                        (* '... does not have a shape compatible with ...' *)
| MsgNotMonotonic (arr_name : string)   (* '{} is not monotonically increasing: {}' *)
| MsgInputSmaller                       (* 'Input edges are all smaller than output edges' *)
| MsgInputLarger                        (* 'Input edges are all larger than output edges' *)
| MsgNegative                           (* 'Cannot rebin spectra with negative values ...' *)
| MsgAllBelowOne.                       (* 'Cannot rebin spectra with all values less than one ...' *)

Inductive exn : Type :=
| RebinError (msg : rebin_message)
| InvalidMethod (method : string)       (* ValueError('{} is not a valid rebinning method') *)
| TypeError                             (* raised by the interpreter *)
| IndexError                            (* raised by an out-of-range subscript *)
| ValueError                            (* raised by a numpy routine *)
| ZeroDivisionError.                    (* raised by a compiled scalar division *)

(** The kinds of section 7 of the specification. *)
Inductive error_kind : Type :=
| ShapeError | NonMonotonicError | NoOverlapError
| NegativeCountsError | AllBelowOneError | UnknownMethodError.

Definition kind_of (e : exn) : option error_kind :=
  match e with
  | RebinError (MsgNotND _) => Some ShapeError
  | RebinError (MsgShape _ _) => Some ShapeError
  | RebinError (MsgNotMonotonic _) => Some NonMonotonicError
  | RebinError MsgInputSmaller => Some NoOverlapError
  | RebinError MsgInputLarger => Some NoOverlapError
  | RebinError MsgNegative => Some NegativeCountsError
  | RebinError MsgAllBelowOne => Some AllBelowOneError
  | InvalidMethod _ => Some UnknownMethodError
  | _ => None
  end.

(** [RebinWarning] is the only warning class; again the message decides. *)
Inductive warning : Type :=
| WarnPadLeft        (* 'The first input edge is larger than the first output edge,
                        zeros will padded on the left side of the new spectrum' *)
| WarnPadRight       (* 'The last input edge is smaller than the last output edge,
                        zeros will padded on the right side of the new spectrum' *)
| WarnPrecisionLoss. (* 'Argument in_spectra contains float value(s) which will
                        have decimal precision loss ...' *)

Inductive result (A : Type) : Type :=
| Ok (a : A)
| Err (e : exn).
Arguments Ok {A} a.
Arguments Err {A} e.

Definition bind {A B} (r : result A) (k : A -> result B) : result B :=
  match r with
  | Ok a => k a
  | Err e => Err e
  end.

Notation "x <- r ;; k" := (bind r (fun x => k))
  (at level 61, r at next level, right associativity).
Notation "r ;;; k" := (bind r (fun _ => k))
  (at level 61, right associativity).

(* ================================================================= *)
(** ** Numbers *)

(** A float64 that is finite, or one of the two infinities. *)
Inductive ext : Type :=
| NInf
| Fin (q : Q)
| PInf.

(** [e < v] and [e > v] for an edge [e] and a finite [v]. *)
Definition ext_lt_q (e : ext) (v : Q) : bool :=
  match e with
  | NInf => true
  | Fin q => if Qlt_le_dec q v then true else false
  | PInf => false
  end.

Definition ext_gt_q (e : ext) (v : Q) : bool :=
  match e with
  | NInf => false
  | Fin q => if Qlt_le_dec v q then true else false
  | PInf => true
  end.

Definition q_ltb (a b : Q) : bool := if Qlt_le_dec a b then true else false.

(** Python's [max(a, b)] and [min(a, b)]: the first argument unless the
    second is strictly larger (smaller). *)
Definition py_max (a b : Q) : Q := if Qlt_le_dec a b then b else a.
Definition py_min (a b : Q) : Q := if Qlt_le_dec b a then b else a.

(** [min(r, e)] where [e] may be the [+inf] sentinel and [max(l, e)]. *)
Definition py_min_ext (r : Q) (e : ext) : ext :=
  match e with
  | NInf => NInf
  | Fin q => Fin (py_min r q)
  | PInf => Fin r
  end.

Definition py_max_ext (l : Q) (e : ext) : ext :=
  match e with
  | NInf => Fin l
  | Fin q => Fin (py_max l q)
  | PInf => PInf
  end.

Definition Zmax0 (k : Z) : Z := Z.max 0 k.

(* ================================================================= *)
(** ** Sequences with Python subscripts *)

Section PySeq.
Context {A : Type}.

(** A subscript [i] of a sequence of length [n]: negative subscripts count
    from the end, anything outside [-n, n) is an [IndexError]. *)
Definition py_index (n : nat) (i : Z) : option nat :=
  if (0 <=? i)%Z then
    if (i <? Z.of_nat n)%Z then Some (Z.to_nat i) else None
  else
    if (- Z.of_nat n <=? i)%Z then Some (Z.to_nat (Z.of_nat n + i)) else None.

Definition py_get (l : list A) (i : Z) : result A :=
  match py_index (length l) i with
  | Some k =>
      match nth_error l k with
      | Some x => Ok x
      | None => Err IndexError
      end
  | None => Err IndexError
  end.

Fixpoint update_at (l : list A) (k : nat) (f : A -> A) : list A :=
  match l, k with
  | [], _ => []
  | x :: l', O => f x :: l'
  | x :: l', S k' => x :: update_at l' k' f
  end.

(** [l[i] = f(l[i])] *)
Definition py_update (l : list A) (i : Z) (f : A -> A) : result (list A) :=
  match py_index (length l) i with
  | Some k => Ok (update_at l k f)
  | None => Err IndexError
  end.

(** [l[:i]] for [0 <= i] (the only use in the source). *)
Definition py_take (l : list A) (i : Z) : list A := firstn (Z.to_nat i) l.

(** [l[:-1]] *)
Definition py_init (l : list A) : list A := removelast l.

(** [l[1:]] *)
Definition py_tail (l : list A) : list A := tl l.

(** [l[0]] and [l[-1]] *)
Definition py_first (l : list A) : result A := py_get l 0%Z.
Definition py_last (l : list A) : result A := py_get l (-1)%Z.

(** [np.searchsorted(a, v)] (side ['left']) on a sorted [a]: the index
    [i] with [a[i-1] < v <= a[i]], that is, the number of leading elements
    below [v].  [below e] decides [e < v]. *)
Fixpoint searchsorted (below : A -> bool) (a : list A) : Z :=
  match a with
  | [] => 0%Z
  | x :: a' => if below x then (1 + searchsorted below a')%Z else 0%Z
  end.
End PySeq.

(** [range(a, b)] *)
Definition py_range (a b : Z) : list Z :=
  map (fun k => (a + Z.of_nat k)%Z) (seq 0 (Z.to_nat (b - a))).

Definition Qsum (l : list Q) : Q := fold_right Qplus 0 l.
Definition Zsum (l : list Z) : Z := fold_right Z.add 0%Z l.

(* ================================================================= *)
(** ** The interpolation kernel *)

(** Division as numba compiles it under its default (Python) error model. *)
Definition py_div (a b : Q) : result Q :=
  if Qeq_bool b 0 then Err ZeroDivisionError else Ok (a / b).

Definition slope_threshold : Q := 1 # 1000000.   (* 1e-6 *)

Definition _linear_offset (slope cts low high : Q) : result Q :=
  if Qlt_le_dec (Qabs slope) slope_threshold then
    py_div cts (high - low)
  else
    py_div (cts - slope / 2 * (high ^ 2 - low ^ 2)) (high - low).

Definition _slope_integral (x m b : Q) : Q := m * x ^ 2 / 2 + b * x.

Definition _counts (m b x_low x_high : Q) : Q :=
  _slope_integral x_high m b - _slope_integral x_low m b.

Section InterpolationLoops.
(** The arrays and the current input bin, fixed during the inner loop. *)
Variable out_edges : list ext.
Variable len_out : Z.                       (* len(out_spectrum) *)
Variables in_left_edge in_right_edge slope offset : Q.

(** The loop [for out_idx in range(out_idx, len(out_spectrum))], run over
    the values [js] that the range still has to produce.  [out_idx] is the
    value of the loop variable when the range is exhausted; after a [break]
    it is the value the body left in it. *)
Fixpoint out_loop (js : list Z) (out_idx : Z) (out_spectrum : list Q)
  : result (list Q * Z) :=
  match js with
  | [] => Ok (out_spectrum, out_idx)
  | j :: js' =>
      out_left_edge <- py_get out_edges j ;;
      out_right_edge <- py_get out_edges (j + 1)%Z ;;
      if ext_gt_q out_left_edge in_right_edge then
        Ok (out_spectrum, (j - 1)%Z)
      else
        let low :=
          if (j =? 0)%Z then Fin in_left_edge
          else py_max_ext in_left_edge out_left_edge in
        let high :=
          if (j =? len_out - 1)%Z then Fin in_right_edge
          else py_min_ext in_right_edge out_right_edge in
        match low, high with
        | Fin low, Fin high =>
            out_spectrum' <-
              py_update out_spectrum j
                (fun c => c + _counts slope offset low high) ;;
            out_loop js' j out_spectrum'
        | _, _ => Err ValueError    (* a non-finite bound: outside the model *)
        end
  end.
End InterpolationLoops.

Section InterpolationKernel.
Variables (in_spectrum in_edges : list Q) (out_edges : list ext)
          (slopes : list Q) (len_out : Z).

(** The loop [for in_idx in range(in_idx, len(in_spectrum))]. *)
Fixpoint in_loop (idxs : list Z) (out_idx : Z) (out_spectrum : list Q)
  : result (list Q) :=
  match idxs with
  | [] => Ok out_spectrum
  | in_idx :: idxs' =>
      in_left_edge <- py_get in_edges in_idx ;;
      in_right_edge <- py_get in_edges (in_idx + 1)%Z ;;
      counts <- py_get in_spectrum in_idx ;;
      slope <- py_get slopes in_idx ;;
      offset <- _linear_offset slope counts in_left_edge in_right_edge ;;
      st <-
        out_loop out_edges len_out in_left_edge in_right_edge slope offset
          (py_range out_idx len_out) out_idx out_spectrum ;;
      in_loop idxs' (snd st) (fst st)
  end.
End InterpolationKernel.

(** The generalised ufunc, signature ["(n),(N),(m),(n)->(m)"]: the two
    arguments of core dimension [n] must agree in length, and the output has
    the length of [out_edges_no_rightmost]. *)
Definition _rebin_interpolation_vectorized
    (in_spectrum in_edges out_edges_no_rightmost slopes : list Q)
  : result (list Q) :=
  if negb (length in_spectrum =? length slopes)%nat then Err ValueError else
  let len_out := Z.of_nat (length out_edges_no_rightmost) in
  let out_spectrum := repeat 0 (length out_edges_no_rightmost) in
  let out_edges := map Fin out_edges_no_rightmost ++ [PInf] in
  out_edges_0 <- py_get out_edges 0%Z ;;
  let in_idx :=
    Zmax0 (searchsorted (fun e => match out_edges_0 with
                                  | Fin o => q_ltb e o
                                  | PInf => true
                                  | NInf => false
                                  end) in_edges - 1) in
  out_spectrum <-
    py_update out_spectrum 0%Z (fun c => c + Qsum (py_take in_spectrum in_idx)) ;;
  in_edges_0 <- py_get in_edges 0%Z ;;
  let out_idx :=
    Zmax0 (searchsorted (fun e => ext_lt_q e in_edges_0) out_edges - 1) in
  in_loop in_spectrum in_edges out_edges slopes len_out
    (py_range in_idx (Z.of_nat (length in_spectrum))) out_idx out_spectrum.

(* ================================================================= *)
(** ** The listmode kernel *)

(** [lo <= x] and [x < hi] (or [x <= hi]) for a finite [x]. *)
Definition ext_le_q (e : ext) (x : Q) : bool :=
  match e with
  | NInf => true
  | Fin q => if Qlt_le_dec x q then false else true
  | PInf => false
  end.

Definition q_lt_ext (x : Q) (e : ext) : bool :=
  match e with
  | NInf => false
  | Fin q => q_ltb x q
  | PInf => true
  end.

Definition q_le_ext (x : Q) (e : ext) : bool :=
  match e with
  | NInf => false
  | Fin q => if Qlt_le_dec q x then false else true
  | PInf => true
  end.

Definition ext_le (a b : ext) : bool :=
  match a, b with
  | NInf, _ => true
  | _, PInf => true
  | Fin x, Fin y => if Qlt_le_dec y x then false else true
  | _, _ => false
  end.

Definition count_if {A} (p : A -> bool) (l : list A) : Z :=
  Z.of_nat (length (filter p l)).

(** [np.histogram(a, bins=edges)[0]] for an explicit edge array: every bin
    is half-open [[lo, hi)] except the last, which is closed; the edges must
    increase monotonically (equal neighbours allowed), else [ValueError]. *)
Fixpoint bins_increase (edges : list ext) : bool :=
  match edges with
  | a :: ((b :: _) as rest) => ext_le a b && bins_increase rest
  | _ => true
  end.

Fixpoint histogram_counts (a : list Q) (edges : list ext) : list Z :=
  match edges with
  | lo :: ((hi :: more) as rest) =>
      count_if (fun x => ext_le_q lo x &&
                         match more with
                         | [] => q_le_ext x hi
                         | _ => q_lt_ext x hi
                         end) a
      :: histogram_counts a rest
  | _ => []
  end.

Definition np_histogram (a : list Q) (edges : list ext) : result (list Z) :=
  if bins_increase edges then Ok (histogram_counts a edges) else Err ValueError.

(** [arr[start:stop] = vals] on a 1-D numpy array, [0 <= start <= stop]:
    the slice is clipped to the array and [vals] must have its length. *)
Definition slice_assign {A} (arr : list A) (start stop : Z) (vals : list A)
  : result (list A) :=
  let n := Z.of_nat (length arr) in
  let a := Z.min start n in
  let b := Z.min stop n in
  if (Z.of_nat (length vals) =? b - a)%Z then
    Ok (firstn (Z.to_nat a) arr ++ vals ++ skipn (Z.to_nat b) arr)
  else Err ValueError.

(** [out[:] = vals]: [vals] has the length of [out], or length one. *)
Definition assign_all {A} (out vals : list A) : result (list A) :=
  if (length vals =? length out)%nat then Ok vals
  else match vals with
       | [v] => Ok (repeat v (length out))
       | _ => Err ValueError
       end.

Section ListmodeKernel.
(** The generator: [rand k] is the [k]-th uniform draw of the process. *)
Variable rand : nat -> Q.

(** [np.random.rand(n)] with the generator at draw [cursor]. *)
Definition np_random_rand (cursor : nat) (n : Z) : result (list Q) :=
  if (n <? 0)%Z then Err ValueError
  else Ok (map rand (seq cursor (Z.to_nat n))).

Variables (in_spectrum : list Z) (in_edges : list Q).

(** The loop [for in_idx in range(len(in_spectrum))]; the state is
    [energies], [energy_idx_start] and the generator. *)
Fixpoint events_loop (idxs : list Z) (energies : list Q)
    (energy_idx_start : Z) (cursor : nat) : result (list Q * nat) :=
  match idxs with
  | [] => Ok (energies, cursor)
  | in_idx :: idxs' =>
      bin_counts <- py_get in_spectrum in_idx ;;
      let energy_idx_stop := (energy_idx_start + bin_counts)%Z in
      in_left_edge <- py_get in_edges in_idx ;;
      in_right_edge <- py_get in_edges (in_idx + 1)%Z ;;
      draws <- np_random_rand cursor bin_counts ;;
      energies' <-
        slice_assign energies energy_idx_start energy_idx_stop
          (map (fun u => in_left_edge + (in_right_edge - in_left_edge) * u)
               draws) ;;
      events_loop idxs' energies' energy_idx_stop
        (cursor + Z.to_nat bin_counts)%nat
  end.
End ListmodeKernel.

(** The generalised ufunc, signature ["(n),(N),(m)->(m)"].  It returns the
    output row and the position of the generator after the call. *)
Definition _rebin_listmode_vectorized (rand : nat -> Q) (cursor : nat)
    (in_spectrum : list Z) (in_edges out_edges_no_rightmost : list Q)
  : result (list Z * nat) :=
  let out_spectrum := repeat 0%Z (length out_edges_no_rightmost) in
  let out_edges :=
    [NInf] ++ map Fin (py_tail out_edges_no_rightmost) ++ [PInf] in
  if (Zsum in_spectrum <? 0)%Z then Err ValueError else
  let energies := repeat 0 (Z.to_nat (Zsum in_spectrum)) in
  st <- events_loop rand in_spectrum in_edges
          (py_range 0 (Z.of_nat (length in_spectrum))) energies 0%Z cursor ;;
  hist <- np_histogram (fst st) out_edges ;;
  out_spectrum <- assign_all out_spectrum hist ;;
  Ok (out_spectrum, snd st).

(* ================================================================= *)
(** ** Arrays *)

(** A numpy array of rank 0, 1, 2 or higher.  A rank-2 array keeps its
    number of columns next to its rows (an array may have no row); an
    array of rank three or more keeps its shape and its lanes, the 1-D
    sub-arrays along the last axis in row-major order. *)
Inductive ndarray (A : Type) : Type :=
| Arr0 (x : A)
| Arr1 (v : list A)
| Arr2 (ncols : nat) (rows : list (list A))
| ArrN (d0 d1 d2 : nat) (ds : list nat) (lanes_ : list (list A)).
Arguments Arr0 {A} x.
Arguments Arr1 {A} v.
Arguments Arr2 {A} ncols rows.
Arguments ArrN {A} d0 d1 d2 ds lanes_.

Fixpoint map_result {A B} (f : A -> result B) (l : list A) : result (list B) :=
  match l with
  | [] => Ok []
  | x :: l' => y <- f x ;; ys <- map_result f l' ;; Ok (y :: ys)
  end.

Section Arrays.
Context {A : Type}.

Definition ndim (a : ndarray A) : Z :=
  match a with
  | Arr0 _ => 0
  | Arr1 _ => 1
  | Arr2 _ _ => 2
  | ArrN _ _ _ ds _ => 3 + Z.of_nat (length ds)
  end.

Definition shape (a : ndarray A) : list Z :=
  match a with
  | Arr0 _ => []
  | Arr1 v => [Z.of_nat (length v)]
  | Arr2 ncols rows => [Z.of_nat (length rows); Z.of_nat ncols]
  | ArrN d0 d1 d2 ds _ => map Z.of_nat (d0 :: d1 :: d2 :: ds)
  end.

(** All the elements, in row-major order. *)
Definition elements (a : ndarray A) : list A :=
  match a with
  | Arr0 x => [x]
  | Arr1 v => v
  | Arr2 _ rows => concat rows
  | ArrN _ _ _ _ ls => concat ls
  end.

(** The 1-D sub-arrays along the last axis; a rank-0 array has none. *)
Definition lanes (a : ndarray A) : option (list (list A)) :=
  match a with
  | Arr0 _ => None
  | Arr1 v => Some [v]
  | Arr2 _ rows => Some rows
  | ArrN _ _ _ _ ls => Some ls
  end.

(** The length of the last axis. *)
Definition last_axis (a : ndarray A) : option nat :=
  match a with
  | Arr0 _ => None
  | Arr1 v => Some (length v)
  | Arr2 ncols _ => Some ncols
  | ArrN _ _ d2 ds _ => Some (last ds d2)
  end.

(** What numpy guarantees of an array: it is rectangular. *)
Definition well_formed (a : ndarray A) : Prop :=
  match a with
  | Arr0 _ | Arr1 _ => True
  | Arr2 ncols rows => Forall (fun r => length r = ncols) rows
  | ArrN d0 d1 d2 ds ls =>
      Forall (fun r => length r = last ds d2) ls /\
      (length ls * last ds d2 = fold_right Nat.mul 1 (d0 :: d1 :: d2 :: ds))%nat
  end.

(** [arr[..., i]] as the list of the selected elements. *)
Definition take_last_axis (a : ndarray A) (i : Z) : result (list A) :=
  match last_axis a, lanes a with
  | Some n, Some ls =>
      match py_index n i with
      | Some _ => map_result (fun lane => py_get lane i) ls
      | None => Err IndexError
      end
  | _, _ => Err IndexError
  end.
End Arrays.

Definition nd_map {A B} (f : A -> B) (a : ndarray A) : ndarray B :=
  match a with
  | Arr0 x => Arr0 (f x)
  | Arr1 v => Arr1 (map f v)
  | Arr2 ncols rows => Arr2 ncols (map (map f) rows)
  | ArrN d0 d1 d2 ds ls => ArrN d0 d1 d2 ds (map (map f) ls)
  end.

(** An array argument of [rebin] whose dtype matters: int64 or float64. *)
Inductive numarray : Type :=
| IntArray (a : ndarray Z)
| FloatArray (a : ndarray Q).

Definition num_ndim (a : numarray) : Z :=
  match a with IntArray a => ndim a | FloatArray a => ndim a end.

Definition num_shape (a : numarray) : list Z :=
  match a with IntArray a => shape a | FloatArray a => shape a end.

(** The values of the array, each as a rational. *)
Definition num_values (a : numarray) : ndarray Q :=
  match a with IntArray a => nd_map inject_Z a | FloatArray a => a end.

(* ================================================================= *)
(** ** numpy routines on values *)

Definition np_atol : Q := 1 # 100000000.   (* 1e-8 *)
Definition np_rtol : Q := 1 # 100000.      (* 1e-5 *)

Definition q_leb (a b : Q) : bool := if Qlt_le_dec b a then false else true.

(** [np.isclose(a, b)]: [|a - b| <= atol + rtol * |b|] *)
Definition np_isclose (a b : Q) : bool :=
  q_leb (Qabs (a - b)) (np_atol + np_rtol * Qabs b).

(** [np.round] of one value, to the nearest integer, ties to even. *)
Definition np_round (x : Q) : Z :=
  let f := Qfloor x in
  let d := x - inject_Z f in
  if Qlt_le_dec d (1 # 2) then f
  else if Qlt_le_dec (1 # 2) d then (f + 1)%Z
  else if Z.even f then f else (f + 1)%Z.

(** [np.allclose(a, np.round(a))] *)
Definition allclose_round (a : ndarray Q) : bool :=
  forallb (fun x => np_isclose x (inject_Z (np_round x))) (elements a).

(** [np.diff] of one lane. *)
Fixpoint np_diff (l : list Q) : list Q :=
  match l with
  | a :: ((b :: _) as rest) => (b - a) :: np_diff rest
  | _ => []
  end.

(** [str.lower] on ASCII text. *)
Definition lower_ascii (c : ascii) : ascii :=
  let n := nat_of_ascii c in
  if ((65 <=? n) && (n <=? 90))%nat then ascii_of_nat (n + 32) else c.

Fixpoint lower (s : string) : string :=
  match s with
  | EmptyString => EmptyString
  | String c s' => String (lower_ascii c) (lower s')
  end.

(* ================================================================= *)
(** ** Validators *)

(** The [ndim] argument of [_check_ndim]: the source passes a set for the
    input arrays and the plain integer [1] for the output edges. *)
Inductive ndim_arg : Type :=
| NdInt (k : Z)
| NdSet (ks : list Z).

(** [n != ndim]: an integer never equals a set. *)
Definition py_ne (n : Z) (nd : ndim_arg) : bool :=
  match nd with
  | NdInt k => negb (n =? k)%Z
  | NdSet _ => true
  end.

(** [n not in ndim]: membership in an integer is a [TypeError]. *)
Definition py_not_in (n : Z) (nd : ndim_arg) : result bool :=
  match nd with
  | NdInt _ => Err TypeError
  | NdSet ks => Ok (negb (existsb (Z.eqb n) ks))
  end.

(** [_check_ndim(arr, ndim, arr_name)], [arr_ndim] being [arr.ndim].  The
    right operand of [and] is evaluated only when the left one holds. *)
Definition _check_ndim (arr_ndim : Z) (nd : ndim_arg) (arr_name : string)
  : result unit :=
  if py_ne arr_ndim nd then
    not_in <- py_not_in arr_ndim nd ;;
    if not_in then Err (RebinError (MsgNotND arr_name)) else Ok tt
  else Ok tt.

Definition increasing_or_close (tmp : Q) : bool :=
  q_ltb 0 tmp || np_isclose tmp 0.

Definition _check_monotonic_increasing (arr : ndarray Q) (arr_name : string)
  : result unit :=
  match lanes arr with
  | None => Err ValueError         (* np.diff of a rank-0 array *)
  | Some ls =>
      if forallb (fun lane => forallb increasing_or_close (np_diff lane)) ls
      then Ok tt
      else Err (RebinError (MsgNotMonotonic arr_name))
  end.

Definition _check_partial_overlap (in_edges : ndarray Q) (out_edges : list Q)
  : result (list warning) :=
  in_first <- take_last_axis in_edges 0%Z ;;
  out_first <- py_first out_edges ;;
  let left :=
    if existsb (fun e => q_ltb out_first e) in_first then [WarnPadLeft] else [] in
  in_last <- take_last_axis in_edges (-1)%Z ;;
  out_last <- py_last out_edges ;;
  let right :=
    if existsb (fun e => q_ltb e out_last) in_last then [WarnPadRight] else [] in
  Ok (left ++ right).

Definition _check_any_overlap (in_edges : ndarray Q) (out_edges : list Q)
  : result unit :=
  in_last <- take_last_axis in_edges (-1)%Z ;;
  out_first <- py_first out_edges ;;
  if existsb (fun e => q_leb e out_first) in_last then
    Err (RebinError MsgInputSmaller)
  else
    in_first <- take_last_axis in_edges 0%Z ;;
    out_last <- py_last out_edges ;;
    if existsb (fun e => q_leb out_last e) in_first then
      Err (RebinError MsgInputLarger)
    else Ok tt.

Definition _broadcast (arr : ndarray Q) (shp : list Z) : ndarray Q :=
  match arr, shp with
  | Arr1 v, [n; _] => Arr2 (length v) (repeat v (Z.to_nat n))
  | _, _ => arr
  end.

Definition shape_eqb (s t : list Z) : bool :=
  if list_eq_dec Z.eq_dec s t then true else false.

Definition _check_shape (arr0_shape arr1_shape : list Z)
    (arr0_name arr1_name : string) (edges : bool) : result unit :=
  arr1_shape <-
    (if edges then
       match arr1_shape with
       | [] => Err IndexError
       | [n] => Ok [(n - 1)%Z]
       | n :: c :: _ => Ok [n; (c - 1)%Z]
       end
     else Ok arr1_shape) ;;
  if shape_eqb arr0_shape arr1_shape then Ok tt
  else Err (RebinError (MsgShape arr0_name arr1_name)).

(* ================================================================= *)
(** ** The two methods over a batch *)

(** [xr.apply_ufunc] hands plain arrays to the generalised ufunc, which
    loops over the leading axis.  The dispatcher only ever passes arrays
    that are all of rank 1 or all of rank 2 with the same number of rows
    (see [rebin]); other combinations are not modelled and give
    [ValueError]. *)
Fixpoint interpolation_rows (spectra edges slopes : list (list Q))
    (out_edges_no_rightmost : list Q) : result (list (list Q)) :=
  match spectra, edges, slopes with
  | [], [], [] => Ok []
  | s :: spectra', e :: edges', m :: slopes' =>
      row <- _rebin_interpolation_vectorized s e out_edges_no_rightmost m ;;
      others <- interpolation_rows spectra' edges' slopes' out_edges_no_rightmost ;;
      Ok (row :: others)
  | _, _, _ => Err ValueError
  end.

Definition _rebin_interpolation (in_spectra in_edges : ndarray Q)
    (out_edges : list Q) (slopes : ndarray Q) : result (ndarray Q) :=
  match in_spectra, in_edges, slopes with
  | Arr1 s, Arr1 e, Arr1 m =>
      row <- _rebin_interpolation_vectorized s e (py_init out_edges) m ;;
      Ok (Arr1 row)
  | Arr2 _ ss, Arr2 _ es, Arr2 _ ms =>
      rows <- interpolation_rows ss es ms (py_init out_edges) ;;
      Ok (Arr2 (length (py_init out_edges)) rows)
  | _, _, _ => Err ValueError
  end.

(** The rows of a batch draw from the one generator, one after the other. *)
Fixpoint listmode_rows (rand : nat -> Q) (cursor : nat)
    (spectra : list (list Z)) (edges : list (list Q))
    (out_edges_no_rightmost : list Q) : result (list (list Z)) :=
  match spectra, edges with
  | [], [] => Ok []
  | s :: spectra', e :: edges' =>
      st <- _rebin_listmode_vectorized rand cursor s e out_edges_no_rightmost ;;
      others <- listmode_rows rand (snd st) spectra' edges' out_edges_no_rightmost ;;
      Ok (fst st :: others)
  | _, _ => Err ValueError
  end.

Definition _rebin_listmode (rand : nat -> Q) (in_spectra : ndarray Z)
    (in_edges : ndarray Q) (out_edges : list Q) : result (ndarray Z) :=
  match in_spectra, in_edges with
  | Arr1 s, Arr1 e =>
      st <- _rebin_listmode_vectorized rand 0 s e (py_init out_edges) ;;
      Ok (Arr1 (fst st))
  | Arr2 _ ss, Arr2 _ es =>
      rows <- listmode_rows rand 0 ss es (py_init out_edges) ;;
      Ok (Arr2 (length (py_init out_edges)) rows)
  | _, _ => Err ValueError
  end.

(* ================================================================= *)
(** ** The dispatcher *)

(** The rank-1 array behind [out_edges] once [_check_ndim] has accepted it
    (the error branch is not reachable from [rebin], see
    [check_ndim_int_1]). *)
Definition as_1d {A} (a : ndarray A) : result (list A) :=
  match a with
  | Arr1 v => Ok v
  | _ => Err TypeError
  end.

(** The cast and the checks at the head of [rebin] that depend on the
    method: what becomes of [in_spectra], and the warnings raised. *)
Definition cast_spectra (method : string) (in_spectra : numarray)
  : result (list warning * numarray) :=
  if (method =? "listmode")%string then
    if existsb (fun x => q_ltb x 0) (elements (num_values in_spectra)) then
      Err (RebinError MsgNegative)
    else if forallb (fun x => q_ltb x 1) (elements (num_values in_spectra)) then
      Err (RebinError MsgAllBelowOne)
    else
      match in_spectra with
      | FloatArray a =>
          Ok (if allclose_round a then [] else [WarnPrecisionLoss],
              IntArray (nd_map np_round a))
      | IntArray _ => Ok ([], in_spectra)
      end
  else Ok ([], FloatArray (num_values in_spectra)).

(** The kernel call at the foot of [rebin].  The spectra are float64 for
    ["interpolation"] and int64 for ["listmode"] by [cast_spectra]; a ufunc
    casts int64 to float64 and refuses the converse. *)
Definition dispatch (rand : nat -> Q) (method : string) (in_spectra : numarray)
    (in_edges : ndarray Q) (out_edges : list Q) (slopes : ndarray Q)
  : result numarray :=
  if (method =? "interpolation")%string then
    r <- _rebin_interpolation (num_values in_spectra) in_edges out_edges slopes ;;
    Ok (FloatArray r)
  else if (method =? "listmode")%string then
    match in_spectra with
    | IntArray a =>
        r <- _rebin_listmode rand a in_edges out_edges ;; Ok (IntArray r)
    | FloatArray _ => Err TypeError
    end
  else Err (InvalidMethod method).

(** What the head of [rebin] leaves for the rest of the call. *)
Record checked_arrays : Type := {
  ca_warnings : list warning;
  ca_spectra : numarray;
  ca_in_edges : ndarray Q;
  ca_slopes : ndarray Q
}.

(** [rebin], from the cast to the shape checks. *)
Definition rebin_arrays (method : string) (in_spectra : numarray)
    (in_edges out_edges : ndarray Q) (slopes : option (ndarray Q))
  : result checked_arrays :=
  cast <- cast_spectra method in_spectra ;;
  let in_spectra := snd cast in
  let slopes :=
    match slopes with
    | None => nd_map (fun _ => 0) (num_values in_spectra)
    | Some m => m
    end in
  let in_edges := _broadcast in_edges (num_shape in_spectra) in
  let slopes := _broadcast slopes (num_shape in_spectra) in
  _check_ndim (num_ndim in_spectra) (NdSet [1; 2]%Z) "in_spectra" ;;;
  _check_ndim (ndim in_edges) (NdSet [1; 2]%Z) "in_edges" ;;;
  _check_ndim (ndim slopes) (NdSet [1; 2]%Z) "slopes" ;;;
  _check_ndim (ndim out_edges) (NdInt 1) "out_edges" ;;;
  _check_shape (num_shape in_spectra) (shape in_edges)
    "in_spectra" "in_edges" true ;;;
  _check_shape (num_shape in_spectra) (shape slopes)
    "in_spectra" "slopes" false ;;;
  Ok {| ca_warnings := fst cast; ca_spectra := in_spectra;
        ca_in_edges := in_edges; ca_slopes := slopes |}.

(** [rebin], the checks of the bin structure: the padding warnings and
    the output edges as a sequence. *)
Definition rebin_edges (in_edges out_edges : ndarray Q)
    (zero_pad_warnings : bool) : result (list warning * list Q) :=
  _check_monotonic_increasing in_edges "in_edges" ;;;
  _check_monotonic_increasing out_edges "out_edges" ;;;
  out_edges_1d <- as_1d out_edges ;;
  _check_any_overlap in_edges out_edges_1d ;;;
  padding <-
    (if zero_pad_warnings then _check_partial_overlap in_edges out_edges_1d
     else Ok []) ;;
  Ok (padding, out_edges_1d).

(** [rebin(in_spectra, in_edges, out_edges, method, slopes,
    zero_pad_warnings)]: the warnings raised and the rebinned spectra, or
    the exception.  [rand] is the state of the random generator. *)
Definition rebin (rand : nat -> Q) (in_spectra : numarray)
    (in_edges out_edges : ndarray Q) (method : string)
    (slopes : option (ndarray Q)) (zero_pad_warnings : bool)
  : result (list warning * numarray) :=
  let method := lower method in
  ca <- rebin_arrays method in_spectra in_edges out_edges slopes ;;
  ed <- rebin_edges (ca_in_edges ca) out_edges zero_pad_warnings ;;
  r <- dispatch rand method (ca_spectra ca) (ca_in_edges ca) (snd ed)
         (ca_slopes ca) ;;
  Ok (ca_warnings ca ++ fst ed, r).

(* ================================================================= *)
(** ** Predicates of the properties *)


(** The lanes of an edge array. *)
Definition edge_lanes (a : ndarray Q) : list (list Q) :=
  match lanes a with
  | Some ls => ls
  | None => []
  end.

(** Edges as the data model wants them. *)
Fixpoint strictly_increasing (l : list Q) : Prop :=
  match l with
  | a :: ((b :: _) as rest) => a < b /\ strictly_increasing rest
  | _ => True
  end.


(** The padding warnings of a single spectrum. *)
Definition padding_1d (e o : list Q) (zero_pad_warnings : bool) : list warning :=
  if zero_pad_warnings then
    (if q_ltb (hd 0 o) (hd 0 e) then [WarnPadLeft] else []) ++
    (if q_ltb (last e 0) (last o 0) then [WarnPadRight] else [])
  else [].

(** A slope for which [_linear_offset] and [_counts] agree: zero, or at
    least the threshold in magnitude. *)
Definition slope_exact (slope : Q) : Prop :=
  slope == 0 \/ slope_threshold <= Qabs slope.

(** The inner loop of the interpolation kernel may be entered at output
    bin [t] for the input bin [[L, R]]: the bin holds [L], or it is the
    first one and starts before [R].  [O] are the output edges without the
    rightmost. *)
Definition entry (O : list Q) (t : nat) (L R : Q) : Prop :=
  (t < length O)%nat /\ (t = 0%nat \/ nth t O 0 <= L) /\ nth t O 0 <= R /\
  ((S t < length O)%nat -> L <= nth (S t) O 0).








(** What the listmode method asks of the counts before anything else: no
    negative value and one value that is not below one.  The other methods
    ask nothing. *)
Definition counts_accepted (method : string) (in_spectra : numarray) : Prop :=
  method = "listmode"%string ->
  (forall x, In x (elements (num_values in_spectra)) -> 0 <= x) /\
  (exists x, In x (elements (num_values in_spectra)) /\ 1 <= x).

(** The slopes a call hands over have rank 1 or 2, or are left out. *)
Definition slopes_rank_ok (slopes : option (ndarray Q)) : Prop :=
  match slopes with
  | Some m => ndim m = 1%Z \/ ndim m = 2%Z
  | None => True
  end.



(* ================================================================= *)
(** * Properties *)

(** ** The kernels on two inputs *)

Example interpolation_pad_right :
  option_map (map Qred)
    (match _rebin_interpolation_vectorized
             [10; 10; 10] [0; 1; 2; 3] [0; 1; 2; 3] [0; 0; 0] with
     | Ok l => Some l | Err _ => None end)
  = Some [10; 10; 10; 0].
Proof. vm_compute. reflexivity. Qed.

Example listmode_all_left :
  _rebin_listmode_vectorized (fun _ => 1 # 4) 0 [100; 0; 50]%Z [0; 1; 2; 3]
    [0; 3 # 2]
  = Ok ([100; 50]%Z, 150%nat).
Proof. vm_compute. reflexivity. Qed.

(** ** The error monad *)

Lemma bind_ok {A B} (r : result A) (k : A -> result B) (b : B) :
  bind r k = Ok b -> exists a, r = Ok a /\ k a = Ok b.
Proof. destruct r as [a|e]; simpl; intros H; [eauto | discriminate]. Qed.



















Lemma lower_idempotent s : lower (lower s) = lower s.
Proof.
  induction s as [|c s IH]; simpl; [reflexivity|]. f_equal; [|exact IH].
  unfold lower_ascii.
  destruct ((65 <=? nat_of_ascii c)%nat && (nat_of_ascii c <=? 90)%nat) eqn:E.
  - apply andb_prop in E. destruct E as [E1 E2].
    apply Nat.leb_le in E1. apply Nat.leb_le in E2.
    rewrite nat_ascii_embedding by lia.
    replace ((65 <=? nat_of_ascii c + 32)%nat && (nat_of_ascii c + 32 <=? 90)%nat)
      with false; [reflexivity|].
    symmetry. apply andb_false_iff. right. apply Nat.leb_gt. lia.
  - rewrite E. reflexivity.
Qed.

(** ** The method selector *)



(** ** Rejections at the head of the dispatcher *)

Lemma existsb_In {A} (p : A -> bool) (l : list A) (x : A) :
  In x l -> p x = true -> existsb p l = true.
Proof. intros Hin Hp. apply existsb_exists. exists x. split; assumption. Qed.

Lemma q_ltb_true a b : q_ltb a b = true <-> a < b.
Proof.
  unfold q_ltb. destruct (Qlt_le_dec a b) as [H|H]; split; intros H';
    try reflexivity; try assumption; try discriminate.
  exfalso. exact (Qlt_not_le _ _ H' H).
Qed.

Lemma q_leb_true a b : q_leb a b = true <-> a <= b.
Proof.
  unfold q_leb. destruct (Qlt_le_dec b a) as [H|H]; split; intros H';
    try reflexivity; try assumption; try discriminate.
  exfalso. exact (Qlt_not_le _ _ H H').
Qed.

(** C8.  With the listmode method a spectrum that holds a negative value is
    refused with the negative-counts error, whatever the other arguments:
    the refusal is the first step of [rebin], ahead of every check and of
    the kernels. *)
Theorem rebin_listmode_negative_counts
    (rand : nat -> Q) (in_spectra : numarray) (in_edges out_edges : ndarray Q)
    (method : string) (slopes : option (ndarray Q)) (zero_pad_warnings : bool)
    (x : Q) :
  lower method = "listmode"%string ->
  In x (elements (num_values in_spectra)) ->
  x < 0 ->
  cast_spectra (lower method) in_spectra = Err (RebinError MsgNegative) /\
  rebin rand in_spectra in_edges out_edges method slopes zero_pad_warnings
    = Err (RebinError MsgNegative) /\
  kind_of (RebinError MsgNegative) = Some NegativeCountsError.
Proof.
  intros Hm Hin Hneg.
  assert (Hc : cast_spectra (lower method) in_spectra
               = Err (RebinError MsgNegative)).
  { rewrite Hm. unfold cast_spectra. simpl String.eqb. cbv iota.
    rewrite (existsb_In (fun x => q_ltb x 0) _ x Hin); [reflexivity|].
    apply q_ltb_true. exact Hneg. }
  split; [exact Hc|]. split; [|reflexivity].
  unfold rebin, rebin_arrays. rewrite Hc. reflexivity.
Qed.

Lemma rebin_listmode_negative_counts_witness :
  rebin (fun _ => 1 # 2) (IntArray (Arr1 [-1; 5]%Z)) (Arr1 [0; 1; 2])
    (Arr1 [0; 2]) "listmode" None true
  = Err (RebinError MsgNegative).
Proof.
  apply (rebin_listmode_negative_counts (fun _ => 1 # 2)
           (IntArray (Arr1 [-1; 5]%Z)) (Arr1 [0; 1; 2]) (Arr1 [0; 2])
           "listmode" None true (inject_Z (-1))).
  - reflexivity.
  - simpl. left. reflexivity.
  - reflexivity.
Defined.

(** C3.  The rank of the output edges is tested by [_check_ndim] with the
    integer [1] where the other arrays get the set [{1, 2}].  For an array
    of another rank the test goes on to [arr.ndim not in 1], and the call
    ends on the interpreter's [TypeError], not on a [RebinError]: no kind of
    rebin error is raised.  Stated for a single spectrum and the
    interpolation method, whose earlier rank checks all pass. *)
Theorem rebin_out_edges_rank_type_error
    (rand : nat -> Q) (in_spectrum in_edges : list Q) (out_edges : ndarray Q)
    (method : string) (zero_pad_warnings : bool) :
  lower method = "interpolation"%string ->
  ndim out_edges <> 1%Z ->
  rebin rand (FloatArray (Arr1 in_spectrum)) (Arr1 in_edges) out_edges method
    None zero_pad_warnings = Err TypeError /\
  kind_of TypeError = None.
Proof.
  intros Hm Hrank. split; [|reflexivity].
  unfold rebin, rebin_arrays. rewrite Hm.
  unfold cast_spectra. simpl String.eqb. cbv iota. simpl bind.
  unfold _check_ndim, py_ne, py_not_in.
  destruct (Z.eqb_spec (ndim out_edges) 1) as [E|E]; [contradiction|].
  reflexivity.
Qed.

Lemma rebin_out_edges_rank_type_error_witness :
  rebin (fun _ => 1 # 2) (FloatArray (Arr1 [1])) (Arr1 [0; 1])
    (Arr2 2 [[0; 1]]) "interpolation" None true = Err TypeError.
Proof.
  apply (rebin_out_edges_rank_type_error (fun _ => 1 # 2) [1] [0; 1]
           (Arr2 2 [[0; 1]]) "interpolation" true).
  - reflexivity.
  - simpl. discriminate.
Defined.

(** ** Zero padding on a partial overlap *)

(** C6.  Input edges [0,1,2,3] with spectrum [10,10,10] rebinned by
    interpolation onto [0,1,2,3,4] give four bins, the last of which is
    zero, together with the warning that the right side is padded with
    zeros; with the warning flag off the result is the same and no warning
    is raised. *)
Theorem rebin_partial_overlap_zero_padding (rand : nat -> Q) :
  exists out : list Q,
    rebin rand (FloatArray (Arr1 [10; 10; 10])) (Arr1 [0; 1; 2; 3])
      (Arr1 [0; 1; 2; 3; 4]) "interpolation" None true
      = Ok ([WarnPadRight], FloatArray (Arr1 out)) /\
    rebin rand (FloatArray (Arr1 [10; 10; 10])) (Arr1 [0; 1; 2; 3])
      (Arr1 [0; 1; 2; 3; 4]) "interpolation" None false
      = Ok ([], FloatArray (Arr1 out)) /\
    length out = 4%nat /\
    nth 3 out 1 == 0 /\
    Forall2 Qeq out [10; 10; 10; 0].
Proof.
  eexists. split; [vm_compute; reflexivity|].
  split; [vm_compute; reflexivity|].
  split; [reflexivity|]. split; [reflexivity|].
  repeat constructor.
Qed.

(** ** What the head of the dispatcher establishes *)

Lemma rebin_arrays_inv method sp ie oe sl ca :
  rebin_arrays method sp ie oe sl = Ok ca ->
  exists cast,
    let in_spectra := snd cast in
    let slopes :=
      _broadcast match sl with
                 | None => nd_map (fun _ => 0) (num_values in_spectra)
                 | Some m => m
                 end (num_shape in_spectra) in
    let in_edges := _broadcast ie (num_shape in_spectra) in
    cast_spectra method sp = Ok cast /\
    ca = {| ca_warnings := fst cast; ca_spectra := in_spectra;
            ca_in_edges := in_edges; ca_slopes := slopes |} /\
    _check_ndim (num_ndim in_spectra) (NdSet [1; 2]%Z) "in_spectra" = Ok tt /\
    _check_ndim (ndim in_edges) (NdSet [1; 2]%Z) "in_edges" = Ok tt /\
    _check_ndim (ndim slopes) (NdSet [1; 2]%Z) "slopes" = Ok tt /\
    _check_ndim (ndim oe) (NdInt 1) "out_edges" = Ok tt /\
    _check_shape (num_shape in_spectra) (shape in_edges)
      "in_spectra" "in_edges" true = Ok tt /\
    _check_shape (num_shape in_spectra) (shape slopes)
      "in_spectra" "slopes" false = Ok tt.
Proof.
  unfold rebin_arrays. intros H.
  apply bind_ok in H. destruct H as [cast [Hc H]]. exists cast. cbv zeta.
  apply bind_ok in H. destruct H as [[] [H1 H]].
  apply bind_ok in H. destruct H as [[] [H2 H]].
  apply bind_ok in H. destruct H as [[] [H3 H]].
  apply bind_ok in H. destruct H as [[] [H4 H]].
  apply bind_ok in H. destruct H as [[] [H5 H]].
  apply bind_ok in H. destruct H as [[] [H6 H]].
  inversion H. repeat split; assumption.
Qed.

Lemma check_ndim_int_1 {A} (a : ndarray A) name :
  _check_ndim (ndim a) (NdInt 1) name = Ok tt -> exists v, a = Arr1 v.
Proof.
  unfold _check_ndim, py_ne, py_not_in.
  destruct (Z.eqb_spec (ndim a) 1) as [E|E]; simpl; [|discriminate].
  intros _. destruct a; unfold ndim in E; try discriminate; [eauto | lia].
Qed.

Lemma check_ndim_set_12 n name :
  _check_ndim n (NdSet [1; 2]%Z) name = Ok tt -> n = 1%Z \/ n = 2%Z.
Proof.
  unfold _check_ndim, py_ne, py_not_in. simpl.
  destruct (Z.eqb_spec n 1); [auto|].
  destruct (Z.eqb_spec n 2); [auto|]. simpl. discriminate.
Qed.

Lemma ndim_1_or_2 {A} (a : ndarray A) :
  ndim a = 1%Z \/ ndim a = 2%Z ->
  (exists v, a = Arr1 v) \/ (exists c rows, a = Arr2 c rows).
Proof.
  destruct a; unfold ndim; intros [H|H]; try discriminate; eauto; lia.
Qed.


Lemma check_shape_edges_1 s n n0 n1 :
  _check_shape s [n] n0 n1 true = Ok tt -> s = [(n - 1)%Z].
Proof.
  unfold _check_shape, shape_eqb. simpl.
  destruct (list_eq_dec Z.eq_dec s [(n - 1)%Z]); [auto | discriminate].
Qed.

Lemma check_shape_edges_2 s n c n0 n1 :
  _check_shape s [n; c] n0 n1 true = Ok tt -> s = [n; (c - 1)%Z].
Proof.
  unfold _check_shape, shape_eqb. simpl.
  destruct (list_eq_dec Z.eq_dec s [n; (c - 1)%Z]); [auto | discriminate].
Qed.

Lemma shape_nonneg {A} (a : ndarray A) : Forall (fun d => (0 <= d)%Z) (shape a).
Proof.
  destruct a; simpl; repeat constructor; try lia.
  induction ds; simpl; constructor; [lia | assumption].
Qed.

Lemma num_shape_nonneg a : Forall (fun d => (0 <= d)%Z) (num_shape a).
Proof. destruct a; apply shape_nonneg. Qed.

Lemma broadcast_well_formed a shp :
  well_formed a -> well_formed (_broadcast a shp).
Proof.
  destruct a; simpl; auto.
  destruct shp as [|n [|c [|]]]; simpl; auto.
  intros _. apply Forall_forall. intros r Hr.
  apply repeat_spec in Hr. subst. reflexivity.
Qed.

(** Input edges that passed the rank and shape checks against the spectra
    have lanes of one positive length. *)
Lemma checked_edges_lanes sp e :
  well_formed e ->
  _check_ndim (ndim e) (NdSet [1; 2]%Z) "in_edges" = Ok tt ->
  _check_shape (num_shape sp) (shape e) "in_spectra" "in_edges" true = Ok tt ->
  exists k, last_axis e = Some (S k) /\ lanes e = Some (edge_lanes e) /\
            Forall (fun lane => length lane = S k) (edge_lanes e).
Proof.
  intros Hwf Hn Hs.
  apply check_ndim_set_12 in Hn. apply ndim_1_or_2 in Hn.
  pose proof (num_shape_nonneg sp) as Hpos.
  destruct Hn as [[v ->] | [c [rows ->]]]; simpl in *.
  - apply check_shape_edges_1 in Hs. rewrite Hs in Hpos.
    inversion Hpos as [|? ? H0 _]; subst.
    destruct v as [|x v]; simpl in H0; [lia|].
    exists (length v). unfold edge_lanes. simpl. repeat split.
    repeat constructor.
  - apply check_shape_edges_2 in Hs. rewrite Hs in Hpos.
    inversion Hpos as [|? ? _ H1]; subst.
    inversion H1 as [|? ? H2 _]; subst.
    destruct c as [|c]; [lia|].
    exists c. unfold edge_lanes. simpl. repeat split. exact Hwf.
Qed.

(** ** Subscripts *)

Lemma py_get_nat {A} (l : list A) (k : nat) :
  py_get l (Z.of_nat k) =
  match nth_error l k with Some x => Ok x | None => Err IndexError end.
Proof.
  unfold py_get, py_index.
  destruct (Z.leb_spec 0 (Z.of_nat k)); [|lia].
  destruct (Z.ltb_spec (Z.of_nat k) (Z.of_nat (length l))).
  - rewrite Nat2Z.id. reflexivity.
  - destruct (nth_error l k) eqn:E; [|reflexivity].
    assert (k < length l)%nat by (apply nth_error_Some; congruence). lia.
Qed.

Lemma py_get_nat_ok {A} (l : list A) (k : nat) (x : A) :
  nth_error l k = Some x -> py_get l (Z.of_nat k) = Ok x.
Proof. intros H. rewrite py_get_nat, H. reflexivity. Qed.

Lemma py_get_Z_ok {A} (l : list A) (i : Z) (x : A) :
  (0 <= i)%Z -> nth_error l (Z.to_nat i) = Some x -> py_get l i = Ok x.
Proof.
  intros Hi H. rewrite <- (Z2Nat.id i) by exact Hi. apply py_get_nat_ok, H.
Qed.

Lemma py_first_cons {A} (x : A) (l : list A) : py_first (x :: l) = Ok x.
Proof. apply (py_get_nat_ok (x :: l) 0). reflexivity. Qed.

Lemma py_last_snoc {A} (l : list A) (x : A) : py_last (l ++ [x]) = Ok x.
Proof.
  unfold py_last, py_get, py_index. rewrite length_app. simpl length.
  destruct (Z.leb_spec 0 (-1)); [lia|].
  destruct (Z.leb_spec (- Z.of_nat (length l + 1)) (-1)); [|lia].
  replace (Z.to_nat (Z.of_nat (length l + 1) + -1)) with (length l) by lia.
  rewrite nth_error_app2 by lia. rewrite Nat.sub_diag. reflexivity.
Qed.

Lemma py_get_in_range {A} (l : list A) (i : Z) (j : nat) :
  py_index (length l) i = Some j -> exists x, py_get l i = Ok x /\ In x l.
Proof.
  unfold py_get. intros H. rewrite H.
  assert (j < length l)%nat as Hj.
  { unfold py_index in H.
    destruct (Z.leb_spec 0 i).
    - destruct (Z.ltb_spec i (Z.of_nat (length l))); inversion H; lia.
    - destruct (Z.leb_spec (- Z.of_nat (length l)) i); inversion H; lia. }
  destruct (nth_error l j) as [x|] eqn:E.
  - exists x. split; [reflexivity|]. eapply nth_error_In; eauto.
  - apply nth_error_None in E. lia.
Qed.

Lemma py_get_In {A} (l : list A) (i : Z) (x : A) :
  py_get l i = Ok x -> In x l.
Proof.
  unfold py_get. destruct (py_index _ _) as [j|]; [|discriminate].
  destruct (nth_error l j) eqn:E; [|discriminate].
  intros H. inversion H; subst. eapply nth_error_In; eauto.
Qed.

Lemma py_get_nonempty {A} (l : list A) (i : Z) (x : A) :
  py_get l i = Ok x -> l <> [].
Proof. intros H E. subst. apply py_get_In in H. inversion H. Qed.

Lemma py_first_last_defined {A} (l : list A) :
  l <> [] -> (exists a, py_first l = Ok a) /\ (exists b, py_last l = Ok b).
Proof.
  intros Hl. split.
  - destruct l as [|a l]; [contradiction|]. exists a. apply py_first_cons.
  - destruct (exists_last Hl) as [l' [b ->]]. exists b. apply py_last_snoc.
Qed.

Lemma map_result_ok {A B} (f : A -> result B) (l : list A) :
  (forall x, In x l -> exists y, f x = Ok y) ->
  exists ys, map_result f l = Ok ys /\
             forall y, In y ys <-> exists x, In x l /\ f x = Ok y.
Proof.
  induction l as [|x l IH]; intros H; simpl.
  - exists []. split; [reflexivity|]. intros y. split.
    + intros [].
    + intros [x [[] _]].
  - destruct (H x (or_introl eq_refl)) as [y Hy].
    destruct IH as [ys [Hys Hin]].
    { intros x' Hx'. apply H. right. exact Hx'. }
    exists (y :: ys). rewrite Hy, Hys. simpl. split; [reflexivity|].
    intros y'. split.
    + intros [<-|Hy']; [exists x; auto|].
      apply Hin in Hy'. destruct Hy' as [x' [Hx' Hf]]. exists x'; auto.
    + intros [x' [[<-|Hx'] Hf]].
      * left. congruence.
      * right. apply Hin. exists x'; auto.
Qed.

(** [arr[..., i]] on an array whose lanes have one length the subscript
    fits in: the selected elements are exactly those of the lanes. *)
Lemma take_last_axis_ok (e : ndarray Q) (n : nat) (i : Z) (j : nat) :
  last_axis e = Some n -> lanes e = Some (edge_lanes e) ->
  Forall (fun lane => length lane = n) (edge_lanes e) ->
  py_index n i = Some j ->
  exists l, take_last_axis e i = Ok l /\
            forall x, In x l <->
                      exists lane, In lane (edge_lanes e) /\ py_get lane i = Ok x.
Proof.
  intros Hn Hl Hall Hi. unfold take_last_axis. rewrite Hn, Hl, Hi.
  apply map_result_ok. intros lane Hlane.
  rewrite Forall_forall in Hall. specialize (Hall lane Hlane). subst n.
  destruct (py_get_in_range lane i j Hi) as [x [Hx _]]. eauto.
Qed.

(** ** Ranges that do not overlap *)

Lemma py_index_first n : py_index (S n) 0 = Some 0%nat.
Proof.
  unfold py_index. destruct (Z.leb_spec 0 0); [|lia].
  destruct (Z.ltb_spec 0 (Z.of_nat (S n))); [reflexivity | lia].
Qed.

Lemma py_index_last n : py_index (S n) (-1) = Some n.
Proof.
  unfold py_index. destruct (Z.leb_spec 0 (-1)); [lia|].
  destruct (Z.leb_spec (- Z.of_nat (S n)) (-1)); [|lia].
  f_equal. lia.
Qed.

(** C5.  A call that has passed the rank, shape and monotonicity checks
    fails with the no-overlap error as soon as one spectrum's input edges
    end at or before the first output edge, or begin at or after the last
    output edge.  [lane] is the edge sequence of one spectrum of the batch
    (the only one for a single spectrum). *)
Theorem rebin_no_overlap
    (rand : nat -> Q) (in_spectra : numarray) (in_edges : ndarray Q)
    (out_edges : list Q) (method : string) (slopes : option (ndarray Q))
    (zero_pad_warnings : bool) (ca : checked_arrays) (lane : list Q)
    (a b : Q) :
  well_formed in_edges ->
  rebin_arrays (lower method) in_spectra in_edges (Arr1 out_edges) slopes
    = Ok ca ->
  _check_monotonic_increasing (ca_in_edges ca) "in_edges" = Ok tt ->
  _check_monotonic_increasing (Arr1 out_edges) "out_edges" = Ok tt ->
  In lane (edge_lanes (ca_in_edges ca)) ->
  (py_last lane = Ok b /\ py_first out_edges = Ok a /\ b <= a) \/
  (py_first lane = Ok b /\ py_last out_edges = Ok a /\ a <= b) ->
  exists msg,
    rebin rand in_spectra in_edges (Arr1 out_edges) method slopes
      zero_pad_warnings = Err (RebinError msg) /\
    kind_of (RebinError msg) = Some NoOverlapError.
Proof.
  intros Hwf Harr Hmi Hmo Hlane Hside.
  destruct (rebin_arrays_inv _ _ _ _ _ _ Harr)
    as [cast [_ [Hca [_ [Hn [_ [_ [Hs _]]]]]]]].
  cbv zeta in Hca, Hn, Hs.
  assert (Hie : ca_in_edges ca = _broadcast in_edges (num_shape (snd cast)))
    by (rewrite Hca; reflexivity).
  rewrite <- Hie in Hn, Hs.
  assert (Hwf' : well_formed (ca_in_edges ca))
    by (rewrite Hie; apply broadcast_well_formed, Hwf).
  destruct (checked_edges_lanes _ _ Hwf' Hn Hs) as [k [Hk [Hls Hall]]].
  destruct (take_last_axis_ok _ _ _ _ Hk Hls Hall (py_index_last k))
    as [lasts [Hlasts Hin_last]].
  destruct (take_last_axis_ok _ _ _ _ Hk Hls Hall (py_index_first k))
    as [firsts [Hfirsts Hin_first]].
  assert (Hne : out_edges <> []).
  { destruct Hside as [[_ [H _]] | [_ [H _]]];
      exact (py_get_nonempty _ _ _ H). }
  destruct (py_first_last_defined _ Hne) as [[o0 Ho0] [ol Hol]].
  unfold rebin. rewrite Harr. simpl bind.
  unfold rebin_edges. rewrite Hmi, Hmo. simpl bind.
  unfold _check_any_overlap. rewrite Hlasts, Ho0. simpl bind.
  destruct (existsb (fun e => q_leb e o0) lasts) eqn:Esmall.
  - exists MsgInputSmaller. split; reflexivity.
  - rewrite Hfirsts, Hol. simpl bind.
    destruct (existsb (fun e => q_leb ol e) firsts) eqn:Elarge.
    + exists MsgInputLarger. split; reflexivity.
    + exfalso. destruct Hside as [[Hb [Ha Hle]] | [Hb [Ha Hle]]].
      * rewrite Ho0 in Ha. inversion Ha; subst o0.
        rewrite (existsb_In (fun e => q_leb e a) lasts b) in Esmall;
          [discriminate | | apply q_leb_true; exact Hle].
        apply Hin_last. exists lane. split; assumption.
      * rewrite Hol in Ha. inversion Ha; subst ol.
        rewrite (existsb_In (fun e => q_leb a e) firsts b) in Elarge;
          [discriminate | | apply q_leb_true; exact Hle].
        apply Hin_first. exists lane. split; assumption.
Qed.

Lemma rebin_no_overlap_witness :
  exists msg,
    rebin (fun _ => 1 # 2) (FloatArray (Arr1 [5])) (Arr1 [0; 10])
      (Arr1 [20; 30]) "interpolation" None true = Err (RebinError msg) /\
    kind_of (RebinError msg) = Some NoOverlapError.
Proof.
  apply (rebin_no_overlap (fun _ => 1 # 2) (FloatArray (Arr1 [5]))
           (Arr1 [0; 10]) [20; 30] "interpolation" None true
           {| ca_warnings := []; ca_spectra := FloatArray (Arr1 [5]);
              ca_in_edges := Arr1 [0; 10]; ca_slopes := Arr1 [0] |}
           [0; 10] 20 10).
  - exact I.
  - reflexivity.
  - reflexivity.
  - reflexivity.
  - simpl. left. reflexivity.
  - left. split; [reflexivity|]. split; [reflexivity|]. discriminate.
Defined.

(** ** Monotonic edges *)



Lemma increasing_or_close_pos d : 0 < d -> increasing_or_close d = true.
Proof.
  intros Hd. unfold increasing_or_close.
  apply orb_true_iff. left. apply q_ltb_true. exact Hd.
Qed.



Lemma np_diff_strictly_increasing l :
  strictly_increasing l -> forallb increasing_or_close (np_diff l) = true.
Proof.
  induction l as [|a [|b l] IH]; simpl; try reflexivity.
  intros [Hab Hrest]. apply andb_true_iff. split.
  - apply increasing_or_close_pos. lra.
  - apply IH. exact Hrest.
Qed.




(** ** The histogram of the listmode kernel *)
















(** ** The events of the listmode kernel *)

Lemma map_seq_shift (k : nat) : forall r s,
  map (fun j => (Z.of_nat k + Z.of_nat j)%Z) (seq s r) =
  map Z.of_nat (seq (k + s) r).
Proof.
  induction r as [|r IH]; intros s; simpl; [reflexivity|].
  f_equal; [lia|]. rewrite IH. f_equal. f_equal. lia.
Qed.

Lemma py_range_nat (k n : nat) :
  py_range (Z.of_nat k) (Z.of_nat n) = map Z.of_nat (seq k (n - k)).
Proof.
  unfold py_range.
  replace (Z.to_nat (Z.of_nat n - Z.of_nat k)) with (n - k)%nat by lia.
  rewrite map_seq_shift. rewrite Nat.add_0_r. reflexivity.
Qed.

Lemma skipn_nth_error {A} (l : list A) : forall k x,
  nth_error l k = Some x -> skipn k l = x :: skipn (S k) l.
Proof.
  induction l as [|y l IH]; intros [|k] x H; simpl in *; try discriminate.
  - inversion H. reflexivity.
  - apply IH. exact H.
Qed.





Section EventsLoop.
Variables (rand : nat -> Q) (s : list Z) (e : list Q).
Hypothesis edges_length : length e = S (length s).
Hypothesis counts_nonneg : Forall (fun c => (0 <= c)%Z) s.

End EventsLoop.


(** ** A single spectrum through the checks *)

Lemma py_first_hd {A} (l : list A) (d : A) : l <> [] -> py_first l = Ok (hd d l).
Proof. destruct l as [|x l]; [contradiction|]. intros _. apply py_first_cons. Qed.

Lemma py_last_last {A} (l : list A) (d : A) : l <> [] -> py_last l = Ok (last l d).
Proof.
  intros Hl. destruct (exists_last Hl) as [l' [x ->]].
  rewrite last_last. apply py_last_snoc.
Qed.

Lemma take_last_axis_1d (l : list Q) (i : Z) (x : Q) :
  py_get l i = Ok x -> take_last_axis (Arr1 l) i = Ok [x].
Proof.
  intros H. unfold take_last_axis. simpl. unfold py_get in H.
  destruct (py_index (length l) i) eqn:E; [|discriminate].
  unfold py_get. rewrite E.
  destruct (nth_error l n); [|discriminate]. inversion H. reflexivity.
Qed.

Lemma check_monotonic_1d l name :
  strictly_increasing l -> _check_monotonic_increasing (Arr1 l) name = Ok tt.
Proof.
  intros H. unfold _check_monotonic_increasing. simpl.
  rewrite (np_diff_strictly_increasing l H). reflexivity.
Qed.

Lemma q_ltb_false a b : q_ltb a b = false <-> b <= a.
Proof.
  unfold q_ltb. destruct (Qlt_le_dec a b) as [H|H]; split; intros H';
    try reflexivity; try assumption; try discriminate.
  exfalso. exact (Qlt_not_le _ _ H H').
Qed.

Lemma q_leb_false a b : q_leb a b = false <-> b < a.
Proof.
  unfold q_leb. destruct (Qlt_le_dec b a) as [H|H]; split; intros H';
    try reflexivity; try assumption; try discriminate.
  exfalso. exact (Qlt_not_le _ _ H' H).
Qed.

Lemma rebin_edges_1d e o z :
  e <> [] -> o <> [] ->
  strictly_increasing e -> strictly_increasing o ->
  hd 0 o < last e 0 -> hd 0 e < last o 0 ->
  rebin_edges (Arr1 e) (Arr1 o) z = Ok (padding_1d e o z, o).
Proof.
  intros He Ho Hie Hio Hl Hr. unfold rebin_edges.
  rewrite (check_monotonic_1d e _ Hie), (check_monotonic_1d o _ Hio).
  simpl bind. unfold _check_any_overlap, _check_partial_overlap.
  rewrite (take_last_axis_1d e (-1) _ (py_last_last e 0 He)).
  rewrite (take_last_axis_1d e 0 _ (py_first_hd e 0 He)).
  rewrite (py_first_hd o 0 Ho), (py_last_last o 0 Ho). simpl bind.
  simpl existsb. rewrite !orb_false_r.
  replace (q_leb (last e 0) (hd 0 o)) with false
    by (symmetry; apply q_leb_false; exact Hl).
  replace (q_leb (last o 0) (hd 0 e)) with false
    by (symmetry; apply q_leb_false; exact Hr).
  unfold padding_1d. destruct z; reflexivity.
Qed.



Lemma strictly_increasing_removelast : forall l,
  strictly_increasing l -> strictly_increasing (removelast l).
Proof.
  induction l as [|a [|b [|c l]] IH]; intros H; try exact I.
  change (removelast (a :: b :: c :: l))
    with (a :: b :: removelast (c :: l)).
  destruct H as [Hab Hrest]. split; [exact Hab|].
  exact (IH Hrest).
Qed.

Lemma removelast_length {A} (l : list A) :
  length (removelast l) = pred (length l).
Proof.
  induction l as [|a [|b l] IH]; try reflexivity.
  change (removelast (a :: b :: l)) with (a :: removelast (b :: l)).
  simpl length in *. rewrite IH. reflexivity.
Qed.

Lemma removelast_nonempty {A} (l : list A) :
  (2 <= length l)%nat -> removelast l <> [].
Proof.
  intros H E. apply (f_equal (@length A)) in E.
  rewrite removelast_length in E. simpl in E. lia.
Qed.

(** ** Listmode: integrality, positivity, conservation *)



(** ** Sums, updates and pointwise equality of spectra *)

Lemma Qsum_cons c l : Qsum (c :: l) = c + Qsum l.
Proof. reflexivity. Qed.

Lemma Qsum_app l1 l2 : Qsum (l1 ++ l2) == Qsum l1 + Qsum l2.
Proof.
  induction l1 as [|c l1 IH]; simpl.
  - lra.
  - rewrite IH. lra.
Qed.

Lemma Qsum_repeat_zero n : Qsum (repeat 0 n) == 0.
Proof. induction n as [|n IH]; simpl; [reflexivity | rewrite IH; lra]. Qed.

Lemma Qsum_pointwise l1 l2 : Forall2 Qeq l1 l2 -> Qsum l1 == Qsum l2.
Proof. induction 1 as [|a b l1 l2 Hab _ IH]; simpl; [reflexivity | lra]. Qed.

Lemma pointwise_refl l : Forall2 Qeq l l.
Proof. induction l; constructor; [reflexivity | assumption]. Qed.

Lemma pointwise_trans l1 l2 l3 :
  Forall2 Qeq l1 l2 -> Forall2 Qeq l2 l3 -> Forall2 Qeq l1 l3.
Proof.
  intros H. revert l3. induction H as [|a b l1 l2 Hab _ IH]; intros l3 H3.
  - exact H3.
  - inversion H3; subst. constructor; [lra | auto].
Qed.

Lemma update_at_length {A} (f : A -> A) : forall l k,
  length (update_at l k f) = length l.
Proof.
  induction l as [|x l IH]; intros [|k]; simpl; try reflexivity.
  rewrite IH. reflexivity.
Qed.

Lemma Qsum_update_at v : forall l k,
  (k < length l)%nat ->
  Qsum (update_at l k (fun c => c + v)) == Qsum l + v.
Proof.
  induction l as [|x l IH]; intros [|k] H; simpl in *; try lia.
  - lra.
  - rewrite IH by lia. lra.
Qed.

Lemma update_at_zero v : forall l k,
  v == 0 -> Forall2 Qeq (update_at l k (fun c => c + v)) l.
Proof.
  induction l as [|x l IH]; intros [|k] H; simpl.
  - constructor.
  - constructor.
  - constructor; [lra | apply pointwise_refl].
  - constructor; [reflexivity | apply IH, H].
Qed.

Lemma update_at_pointwise v w : forall l1 l2 k,
  Forall2 Qeq l1 l2 -> v == w ->
  Forall2 Qeq (update_at l1 k (fun c => c + v)) (update_at l2 k (fun c => c + w)).
Proof.
  intros l1 l2 k H. revert k.
  induction H as [|a b l1 l2 Hab Hl IH]; intros [|k] Hvw; simpl;
    try constructor; try assumption; try lra.
  apply IH, Hvw.
Qed.

Lemma py_update_nat {A} (l : list A) (k : nat) (f : A -> A) :
  (k < length l)%nat -> py_update l (Z.of_nat k) f = Ok (update_at l k f).
Proof.
  intros H. unfold py_update, py_index.
  destruct (Z.leb_spec 0 (Z.of_nat k)); [|lia].
  destruct (Z.ltb_spec (Z.of_nat k) (Z.of_nat (length l))); [|lia].
  rewrite Nat2Z.id. reflexivity.
Qed.

Lemma slope_integral_eq x y m b :
  x == y -> _slope_integral x m b == _slope_integral y m b.
Proof. intros H. unfold _slope_integral. simpl Qpower. rewrite H. reflexivity. Qed.

(** ** Strictly increasing sequences *)

Lemma strictly_increasing_step : forall l i,
  strictly_increasing l -> (S i < length l)%nat ->
  nth i l 0 < nth (S i) l 0.
Proof.
  induction l as [|a [|b l] IH]; intros i H Hi; simpl in Hi; try lia.
  destruct H as [Hab Hrest]. destruct i as [|i].
  - exact Hab.
  - change (nth i (b :: l) 0 < nth (S i) (b :: l) 0).
    apply IH; [exact Hrest | simpl; lia].
Qed.

Lemma strictly_increasing_nth l i j :
  strictly_increasing l -> (i < j)%nat -> (j < length l)%nat ->
  nth i l 0 < nth j l 0.
Proof.
  intros H Hij Hj. induction j as [|j IH]; [lia|].
  destruct (Nat.eq_dec i j) as [->|Hne].
  - apply strictly_increasing_step; assumption.
  - apply Qlt_trans with (nth j l 0).
    + apply IH; lia.
    + apply strictly_increasing_step; assumption.
Qed.

Lemma strictly_increasing_le l i j :
  strictly_increasing l -> (i <= j)%nat -> (j < length l)%nat ->
  nth i l 0 <= nth j l 0.
Proof.
  intros H Hij Hj. destruct (Nat.eq_dec i j) as [->|Hne].
  - apply Qle_refl.
  - apply Qlt_le_weak, strictly_increasing_nth; try assumption. lia.
Qed.

(** An index is determined by the neighbours it falls between. *)
Lemma strictly_increasing_lt_index l i j :
  strictly_increasing l -> (i < length l)%nat -> (j < length l)%nat ->
  nth i l 0 < nth j l 0 -> (i < j)%nat.
Proof.
  intros H Hi Hj Hlt. destruct (Nat.lt_ge_cases i j) as [Hc|Hc]; [exact Hc|].
  pose proof (strictly_increasing_le l j i H Hc Hi). lra.
Qed.


Lemma nth_error_nth_Some {A} (l : list A) (k : nat) (d : A) :
  (k < length l)%nat -> nth_error l k = Some (nth k l d).
Proof.
  revert k. induction l as [|x l IH]; intros [|k] H; simpl in *; try lia.
  - reflexivity.
  - apply IH. lia.
Qed.

Lemma py_get_nth (l : list Q) (k : nat) :
  (k < length l)%nat -> py_get l (Z.of_nat k) = Ok (nth k l 0).
Proof. intros H. apply py_get_nat_ok, nth_error_nth_Some, H. Qed.

(** ** The inner loop of the interpolation kernel *)

Section OutLoop.
(** The output edges without the rightmost, at least one of them. *)
Variable O : list Q.
Hypothesis O_increasing : strictly_increasing O.

Let m := length O.
Let oe := map Fin O ++ [PInf].

Lemma out_edge_inner (j : nat) :
  (j < m)%nat -> py_get oe (Z.of_nat j) = Ok (Fin (nth j O 0)).
Proof.
  intros H. apply py_get_nat_ok. unfold oe.
  rewrite nth_error_app1 by (rewrite length_map; exact H).
  rewrite nth_error_map, (nth_error_nth_Some O j 0 H). reflexivity.
Qed.

Lemma out_edge_sentinel : py_get oe (Z.of_nat m) = Ok PInf.
Proof.
  apply py_get_nat_ok. unfold oe.
  rewrite nth_error_app2 by (rewrite length_map; apply Nat.le_refl).
  rewrite length_map. fold m. rewrite Nat.sub_diag. reflexivity.
Qed.

(** The current input bin. *)
Variables L R slope offset : Q.
Hypothesis bin_width : L < R.

Let F (x : Q) : Q := _slope_integral x slope offset.

(** The iterations after the first one.  [x] is how far the earlier
    iterations have integrated the bin; the loop integrates the
    remainder [x .. R] and stops on the output bin that holds [R]. *)
Lemma out_loop_rest : forall r j out x,
  (j + r = m)%nat -> (1 <= j)%nat -> length out = m ->
  L <= x -> x <= R -> nth (j - 1) O 0 <= R ->
  ((j < m)%nat -> (nth j O 0 <= R -> x == nth j O 0) /\
                  (R < nth j O 0 -> x == R)) ->
  (j = m -> x == R) ->
  exists out' t,
    out_loop oe (Z.of_nat m) L R slope offset
      (map Z.of_nat (seq j r)) (Z.of_nat (j - 1)) out
    = Ok (out', Z.of_nat t) /\
    length out' = m /\
    Qsum out' == Qsum out + (F R - F x) /\
    (x == R -> Forall2 Qeq out' out) /\
    (j - 1 <= t)%nat /\ (t < m)%nat /\
    nth t O 0 <= R /\
    ((S t < m)%nat -> R < nth (S t) O 0).
Proof.
  induction r as [|r IH]; intros j out x Hj Hj1 Hlen HLx HxR Hprev Hat Hend.
  - assert (j = m) by lia. specialize (Hend H).
    exists out, (j - 1)%nat. simpl.
    repeat split; try assumption; try lia.
    + unfold F. rewrite (slope_integral_eq x R slope offset Hend). lra.
    + intros _. apply pointwise_refl.
  - assert (Hjm : (j < m)%nat) by lia.
    destruct (Hat Hjm) as [Hcont Hbreak].
    change (map Z.of_nat (seq j (S r)))
      with (Z.of_nat j :: map Z.of_nat (seq (S j) r)).
    cbn [out_loop]. rewrite (out_edge_inner j Hjm). simpl bind.
    replace (Z.of_nat j + 1)%Z with (Z.of_nat (S j)) by lia.
    assert (Hright : exists orr, py_get oe (Z.of_nat (S j)) = Ok orr /\
              ((S j < m)%nat -> orr = Fin (nth (S j) O 0))).
    { destruct (Nat.eq_dec (S j) m) as [E|E].
      - exists PInf. rewrite E. split; [apply out_edge_sentinel | lia].
      - exists (Fin (nth (S j) O 0)).
        split; [apply out_edge_inner; lia | reflexivity]. }
    destruct Hright as [orr [Hget Horr]]. rewrite Hget. simpl bind.
    unfold ext_gt_q. destruct (Qlt_le_dec R (nth j O 0)) as [Hgt|Hle].
    + (* the output bin starts beyond the input bin: rewind and leave *)
      specialize (Hbreak Hgt).
      exists out, (j - 1)%nat.
      replace (Z.of_nat j - 1)%Z with (Z.of_nat (j - 1)) by lia.
      repeat split; try assumption; try lia.
      * unfold F. rewrite (slope_integral_eq x R slope offset Hbreak). lra.
      * intros _. apply pointwise_refl.
      * intros _. replace (S (j - 1)) with j by lia. exact Hgt.
    + specialize (Hcont Hle).
      destruct (Z.eqb_spec (Z.of_nat j) 0) as [E0|_]; [lia|].
      set (low := py_max L (nth j O 0)).
      assert (Hlow : low == x).
      { unfold low, py_max. destruct (Qlt_le_dec L (nth j O 0)); lra. }
      set (high := if (Z.of_nat j =? Z.of_nat m - 1)%Z then Fin R
                   else py_min_ext R orr).
      assert (Hhigh : exists h, high = Fin h /\ L <= h /\ h <= R /\
                x <= h /\
                ((S j < m)%nat ->
                   (nth (S j) O 0 <= R -> h == nth (S j) O 0) /\
                   (R < nth (S j) O 0 -> h == R)) /\
                (S j = m -> h == R)).
      { unfold high. destruct (Z.eqb_spec (Z.of_nat j) (Z.of_nat m - 1)).
        - exists R. repeat split; try lra; try lia.
        - assert (Hs : (S j < m)%nat) by lia.
          rewrite (Horr Hs). simpl py_min_ext.
          exists (py_min R (nth (S j) O 0)).
          pose proof (strictly_increasing_step O j O_increasing Hs) as Hstep.
          unfold py_min.
          destruct (Qlt_le_dec (nth (S j) O 0) R);
            repeat split; try lra; try lia. }
      destruct Hhigh as [h [Eh [HLh [HhR [Hxh [Hnext Hlast]]]]]].
      fold low. fold high. rewrite Eh. cbv iota.
      rewrite py_update_nat by lia. simpl bind.
      set (out1 := update_at out j (fun c => c + _counts slope offset low h)).
      assert (Hlen1 : length out1 = m)
        by (unfold out1; rewrite update_at_length; exact Hlen).
      destruct (IH (S j) out1 h) as [out' [t [Hrun [Hl' [Hsum [Hpt Ht]]]]]];
        try assumption; try lia.
      { replace (S j - 1)%nat with j by lia. exact Hle. }
      replace (S j - 1)%nat with j in Hrun, Ht by lia.
      exists out', t. rewrite Hrun.
      destruct Ht as [Ht1 [Ht2 [Ht3 Ht4]]].
      repeat split; try assumption; try lia.
      * rewrite Hsum. unfold out1. rewrite Qsum_update_at by lia.
        unfold _counts. fold (F h). fold (F low). unfold F.
        rewrite (slope_integral_eq low x slope offset Hlow). lra.
      * intros HxR'.
        assert (HhR' : h == R) by lra.
        apply pointwise_trans with out1; [apply Hpt, HhR'|].
        unfold out1. apply update_at_zero.
        unfold _counts.
        rewrite (slope_integral_eq low h slope offset) by lra. lra.
Qed.
(** The whole inner loop for one input bin, entered at an output bin [s]
    that holds the left edge of the input bin: the loop adds the counts
    of the bin, [F R - F L], to the output and leaves [out_idx] on the
    output bin that holds the right edge. *)
Lemma out_loop_bin : forall s out,
  (s < m)%nat -> length out = m ->
  (s = 0%nat \/ nth s O 0 <= L) -> nth s O 0 <= R ->
  ((S s < m)%nat -> L <= nth (S s) O 0) ->
  exists out' t,
    out_loop oe (Z.of_nat m) L R slope offset
      (py_range (Z.of_nat s) (Z.of_nat m)) (Z.of_nat s) out
    = Ok (out', Z.of_nat t) /\
    length out' = m /\
    Qsum out' == Qsum out + _counts slope offset L R /\
    (((S s < m)%nat -> R <= nth (S s) O 0) ->
     Forall2 Qeq out'
       (update_at out s (fun c => c + _counts slope offset L R))) /\
    (s <= t)%nat /\ (t < m)%nat /\
    nth t O 0 <= R /\
    ((S t < m)%nat -> R < nth (S t) O 0).
Proof.
  intros s out Hs Hlen Hleft Hno_break Hnext.
  rewrite py_range_nat.
  destruct (m - s)%nat as [|r] eqn:Er; [lia|].
  change (map Z.of_nat (seq s (S r)))
    with (Z.of_nat s :: map Z.of_nat (seq (S s) r)).
  cbn [out_loop]. rewrite (out_edge_inner s Hs). simpl bind.
  replace (Z.of_nat s + 1)%Z with (Z.of_nat (S s)) by lia.
  assert (Hright : exists orr, py_get oe (Z.of_nat (S s)) = Ok orr /\
            ((S s < m)%nat -> orr = Fin (nth (S s) O 0))).
  { destruct (Nat.eq_dec (S s) m) as [E|E].
    - exists PInf. rewrite E. split; [apply out_edge_sentinel | lia].
    - exists (Fin (nth (S s) O 0)).
      split; [apply out_edge_inner; lia | reflexivity]. }
  destruct Hright as [orr [Hget Horr]]. rewrite Hget. simpl bind.
  unfold ext_gt_q.
  destruct (Qlt_le_dec R (nth s O 0)) as [Hgt|_]; [exfalso; lra|].
  assert (Hlow : (if (Z.of_nat s =? 0)%Z then Fin L
                  else Fin (py_max L (nth s O 0))) = Fin L).
  { destruct (Z.eqb_spec (Z.of_nat s) 0) as [_|E]; [reflexivity|].
    destruct Hleft as [->|Hle]; [lia|]. unfold py_max.
    destruct (Qlt_le_dec L (nth s O 0)); [exfalso; lra | reflexivity]. }
  rewrite Hlow.
  set (high := if (Z.of_nat s =? Z.of_nat m - 1)%Z then Fin R
               else py_min_ext R orr).
  assert (Hhigh : exists h, high = Fin h /\ L <= h /\ h <= R /\
            ((S s < m)%nat ->
               (nth (S s) O 0 <= R -> h == nth (S s) O 0) /\
               (R < nth (S s) O 0 -> h == R)) /\
            (S s = m -> h == R) /\
            (((S s < m)%nat -> R <= nth (S s) O 0) -> h == R)).
  { unfold high. destruct (Z.eqb_spec (Z.of_nat s) (Z.of_nat m - 1)).
    - exists R. repeat split; try lra; try lia.
    - assert (Hs' : (S s < m)%nat) by lia.
      rewrite (Horr Hs'). simpl py_min_ext.
      exists (py_min R (nth (S s) O 0)).
      specialize (Hnext Hs'). unfold py_min.
      destruct (Qlt_le_dec (nth (S s) O 0) R);
        repeat split; try lra; try lia.
      intros H. specialize (H Hs'). lra. }
  destruct Hhigh as [h [Eh [HLh [HhR [Hrel [Hlast Hfull]]]]]].
  rewrite Eh. cbv iota.
  rewrite py_update_nat by lia. simpl bind.
  set (out1 := update_at out s (fun c => c + _counts slope offset L h)).
  assert (Hlen1 : length out1 = m)
    by (unfold out1; rewrite update_at_length; exact Hlen).
  destruct (out_loop_rest r (S s) out1 h)
    as [out' [t [Hrun [Hl' [Hsum [Hpt [Ht1 [Ht2 [Ht3 Ht4]]]]]]]]];
    try assumption; try lia.
  { replace (S s - 1)%nat with s by lia. exact Hno_break. }
  replace (S s - 1)%nat with s in Hrun, Ht1 by lia.
  exists out', t. rewrite Hrun.
  repeat split; try assumption; try lia.
  - rewrite Hsum. unfold out1. rewrite Qsum_update_at by lia.
    unfold _counts. fold (F h). fold (F L). fold (F R). lra.
  - intros Hcover. specialize (Hfull Hcover).
    apply pointwise_trans with out1; [apply Hpt, Hfull|].
    unfold out1. apply update_at_pointwise; [apply pointwise_refl|].
    unfold _counts. rewrite (slope_integral_eq h R slope offset Hfull).
    reflexivity.
Qed.
End OutLoop.

(** ** The outer loop of the interpolation kernel *)

(** The line through a bin integrates to the counts of the bin. *)
Lemma linear_offset_counts slope c L R :
  L < R -> slope_exact slope ->
  exists b, _linear_offset slope c L R = Ok b /\ _counts slope b L R == c.
Proof.
  intros HLR Hs. unfold _linear_offset, py_div.
  destruct (Qeq_bool (R - L) 0) eqn:E;
    [apply Qeq_bool_eq in E; exfalso; lra|].
  assert (Hw : ~ R - L == 0) by lra.
  destruct (Qlt_le_dec (Qabs slope) slope_threshold) as [Hsmall|Hbig].
  - destruct Hs as [H0|Hth]; [|exfalso; lra].
    eexists. split; [reflexivity|].
    unfold _counts, _slope_integral. rewrite H0. simpl Qpower. field. exact Hw.
  - eexists. split; [reflexivity|].
    unfold _counts, _slope_integral. simpl Qpower. field. exact Hw.
Qed.

Lemma searchsorted_spec {A} (below : A -> bool) (l : list A) :
  exists k : nat,
    searchsorted below l = Z.of_nat k /\ (k <= length l)%nat /\
    (forall i x, (i < k)%nat -> nth_error l i = Some x -> below x = true) /\
    (forall x, nth_error l k = Some x -> below x = false).
Proof.
  induction l as [|a l IH]; cbn [searchsorted length].
  - exists 0%nat. split; [reflexivity|]. split; [lia|].
    split; intros; [lia | discriminate].
  - destruct (below a) eqn:Ea.
    + destruct IH as [k [Hk [Hle [Hlt Hge]]]]. exists (S k).
      split; [rewrite Hk; lia|]. split; [lia|]. split.
      * intros [|i] x Hi Hx; simpl in Hx.
        -- inversion Hx; subst. exact Ea.
        -- apply (Hlt i); [lia | exact Hx].
      * intros x Hx. simpl in Hx. apply Hge, Hx.
    + exists 0%nat. split; [reflexivity|]. split; [lia|].
      split; [intros; lia|].
      intros x Hx. simpl in Hx. inversion Hx; subst. exact Ea.
Qed.

Lemma nth_error_out_edge (O : list Q) (j : nat) :
  (j < length O)%nat ->
  nth_error (map Fin O ++ [PInf]) j = Some (Fin (nth j O 0)).
Proof.
  intros H. rewrite nth_error_app1 by (rewrite length_map; exact H).
  rewrite nth_error_map, (nth_error_nth_Some O j 0 H). reflexivity.
Qed.

Lemma nth_error_out_sentinel (O : list Q) :
  nth_error (map Fin O ++ [PInf]) (length O) = Some PInf.
Proof.
  rewrite nth_error_app2 by (rewrite length_map; apply Nat.le_refl).
  rewrite length_map, Nat.sub_diag. reflexivity.
Qed.

Section InLoop.
Variables (s e O sl : list Q).
Hypothesis edges_length : length e = S (length s).
Hypothesis slopes_length : length sl = length s.
Hypothesis e_increasing : strictly_increasing e.
Hypothesis O_increasing : strictly_increasing O.

Let n := length s.
Let m := length O.
Let oe := map Fin O ++ [PInf].

Hypothesis slopes_exact : Forall slope_exact sl.

Lemma in_loop_conserves : forall r i t out,
  (i + r = n)%nat -> length out = m ->
  ((1 <= r)%nat -> entry O t (nth i e 0) (nth (S i) e 0)) ->
  exists out',
    in_loop s e oe sl (Z.of_nat m) (map Z.of_nat (seq i r)) (Z.of_nat t) out
      = Ok out' /\
    length out' = m /\
    Qsum out' == Qsum out + Qsum (skipn i s).
Proof.
  induction r as [|r IH]; intros i t out Hi Hlen Hentry.
  - exists out. simpl. repeat split; try assumption.
    rewrite skipn_all2 by (fold n; lia). simpl. lra.
  - destruct (Hentry ltac:(lia)) as [Ht [Hleft [Hno_break Hnext]]].
    change (map Z.of_nat (seq i (S r)))
      with (Z.of_nat i :: map Z.of_nat (seq (S i) r)).
    cbn [in_loop].
    rewrite (py_get_nth e i) by lia. simpl bind.
    replace (Z.of_nat i + 1)%Z with (Z.of_nat (S i)) by lia.
    rewrite (py_get_nth e (S i)) by lia. simpl bind.
    rewrite (py_get_nth s i) by (fold n; lia). simpl bind.
    rewrite (py_get_nth sl i) by lia. simpl bind.
    assert (HLR : nth i e 0 < nth (S i) e 0)
      by (apply strictly_increasing_step; [assumption | lia]).
    assert (Hslope : slope_exact (nth i sl 0)).
    { rewrite Forall_forall in slopes_exact. apply slopes_exact.
      apply nth_In. lia. }
    destruct (linear_offset_counts (nth i sl 0) (nth i s 0) _ _ HLR Hslope)
      as [b [Hb Hcounts]].
    rewrite Hb. simpl bind.
    destruct (out_loop_bin O O_increasing (nth i e 0) (nth (S i) e 0)
                (nth i sl 0) b HLR t out Ht Hlen Hleft Hno_break Hnext)
      as [out1 [t' [Hrun [Hlen1 [Hsum [_ [_ [Ht' [Hle' Hlt']]]]]]]]].
    fold oe m in Hrun. rewrite Hrun. simpl bind. simpl fst. simpl snd.
    destruct (IH (S i) t' out1) as [out' [Hrun' [Hlen' Hsum']]];
      [lia | exact Hlen1 | |].
    + intros Hr.
      assert (Hstep : nth (S i) e 0 < nth (S (S i)) e 0)
        by (apply strictly_increasing_step; [assumption | lia]).
      unfold entry. repeat split; try assumption.
      * right. exact Hle'.
      * lra.
      * intros H. specialize (Hlt' H). lra.
    + exists out'. rewrite Hrun'. repeat split; try assumption.
      rewrite Hsum', Hsum, Hcounts.
      rewrite (skipn_nth_error s i (nth i s 0))
        by (apply nth_error_nth_Some; fold n; lia).
      rewrite Qsum_cons. lra.
Qed.
End InLoop.

(** ** The interpolation kernel conserves the counts *)

Lemma py_get_zero (l : list Q) :
  (0 < length l)%nat -> py_get l 0 = Ok (nth 0 l 0).
Proof. intros H. exact (py_get_nth l 0 H). Qed.

Lemma py_update_zero {A} (l : list A) (f : A -> A) :
  (0 < length l)%nat -> py_update l 0 f = Ok (update_at l 0 f).
Proof. intros H. exact (py_update_nat l 0 f H). Qed.

Lemma Zmax0_pred (k : nat) : Zmax0 (Z.of_nat k - 1) = Z.of_nat (k - 1).
Proof. unfold Zmax0. lia. Qed.

(** Where the two cursors start. *)
Lemma initial_entry (e O : list Q) (n k k' : nat) :
  length e = S n -> O <> [] ->
  strictly_increasing e -> strictly_increasing O ->
  (k <= length e)%nat ->
  (forall i x, (i < k)%nat -> nth_error e i = Some x ->
               q_ltb x (nth 0 O 0) = true) ->
  (forall x, nth_error e k = Some x -> q_ltb x (nth 0 O 0) = false) ->
  (k' <= length (map Fin O ++ [PInf]))%nat ->
  (forall i x, (i < k')%nat -> nth_error (map Fin O ++ [PInf]) i = Some x ->
               ext_lt_q x (nth 0 e 0) = true) ->
  (forall x, nth_error (map Fin O ++ [PInf]) k' = Some x ->
             ext_lt_q x (nth 0 e 0) = false) ->
  (k - 1 < n)%nat ->
  entry O (k' - 1) (nth (k - 1) e 0) (nth (S (k - 1)) e 0).
Proof.
  intros He HO Hie HiO Hk Hklt Hkge Hk' Hklt' Hkge' Hbin.
  assert (Hm : (0 < length O)%nat) by (destruct O; [contradiction | simpl; lia]).
  assert (Hk'm : (k' <= length O)%nat).
  { destruct (Nat.le_gt_cases k' (length O)) as [H|H]; [exact H|].
    specialize (Hklt' (length O) PInf H (nth_error_out_sentinel O)).
    discriminate. }
  assert (Hafter : (k' < length O)%nat -> nth 0 e 0 <= nth k' O 0).
  { intros H. specialize (Hkge' _ (nth_error_out_edge O k' H)).
    simpl in Hkge'.
    destruct (Qlt_le_dec (nth k' O 0) (nth 0 e 0)); [discriminate | assumption]. }
  assert (Hbefore : forall i, (i < k')%nat -> nth i O 0 < nth 0 e 0).
  { intros i H.
    specialize (Hklt' i _ H (nth_error_out_edge O i ltac:(lia))).
    simpl in Hklt'.
    destruct (Qlt_le_dec (nth i O 0) (nth 0 e 0)); [assumption | discriminate]. }
  assert (Hstep : nth (k - 1) e 0 < nth (S (k - 1)) e 0)
    by (apply strictly_increasing_step; [assumption | lia]).
  unfold entry. destruct k as [|k].
  - (* the first input edge is not below the first output edge *)
    simpl Nat.sub in *.
    assert (H0 : nth 0 O 0 <= nth 0 e 0).
    { specialize (Hkge _ (nth_error_nth_Some e 0 0 ltac:(lia))).
      apply q_ltb_false in Hkge. exact Hkge. }
    destruct k' as [|k'].
    + simpl Nat.sub. specialize (Hafter Hm).
      split; [exact Hm|]. split; [left; reflexivity|]. split; [lra|].
      intros H1. pose proof (strictly_increasing_step O 0 HiO H1). lra.
    + replace (S k' - 1)%nat with k' by lia.
      pose proof (Hbefore k' ltac:(lia)) as Hb.
      split; [lia|]. split; [right; lra|]. split; [lra|].
      intros H1. apply Hafter, H1.
  - (* input bins lie below the first output edge *)
    replace (S k - 1)%nat with k in * by lia.
    assert (Hk0 : nth k e 0 < nth 0 O 0).
    { specialize (Hklt k _ ltac:(lia) (nth_error_nth_Some e k 0 ltac:(lia))).
      apply q_ltb_true in Hklt. exact Hklt. }
    assert (Hk1 : nth 0 O 0 <= nth (S k) e 0).
    { specialize (Hkge _ (nth_error_nth_Some e (S k) 0 ltac:(lia))).
      apply q_ltb_false in Hkge. exact Hkge. }
    assert (He0 : nth 0 e 0 <= nth k e 0)
      by (apply strictly_increasing_le; [assumption | lia | lia]).
    assert (k' = 0%nat) as ->.
    { destruct k' as [|k']; [reflexivity|].
      pose proof (Hbefore 0%nat ltac:(lia)). lra. }
    simpl Nat.sub.
    split; [exact Hm|]. split; [left; reflexivity|]. split; [exact Hk1|].
    intros H1. pose proof (strictly_increasing_step O 0 HiO H1). lra.
Qed.

Lemma interpolation_kernel_conserves (s e O sl : list Q) :
  length e = S (length s) -> length sl = length s -> O <> [] ->
  strictly_increasing e -> strictly_increasing O ->
  Forall slope_exact sl ->
  exists out,
    _rebin_interpolation_vectorized s e O sl = Ok out /\
    length out = length O /\
    Qsum out == Qsum s.
Proof.
  intros He Hsl HO Hie HiO Hex.
  assert (Hm : (0 < length O)%nat) by (destruct O; [contradiction | simpl; lia]).
  unfold _rebin_interpolation_vectorized.
  rewrite Hsl, Nat.eqb_refl. cbn [negb].
  pose proof (py_get_nat_ok _ 0 _ (nth_error_out_edge O 0 Hm)) as Ho0.
  cbn [Z.of_nat] in Ho0. rewrite Ho0. simpl bind.
  destruct (searchsorted_spec (fun x => q_ltb x (nth 0 O 0)) e)
    as [k [Ek [Hk [Hklt Hkge]]]].
  rewrite Ek, Zmax0_pred.
  rewrite py_update_zero by (rewrite repeat_length; exact Hm). simpl bind.
  rewrite py_get_zero by lia. simpl bind.
  destruct (searchsorted_spec (fun x => ext_lt_q x (nth 0 e 0))
              (map Fin O ++ [PInf]))
    as [k' [Ek' [Hk' [Hklt' Hkge']]]].
  rewrite Ek', Zmax0_pred. unfold py_take. rewrite Nat2Z.id.
  rewrite py_range_nat.
  set (out0 := update_at (repeat 0 (length O)) 0
                 (fun c => c + Qsum (firstn (k - 1) s))).
  assert (Hlen0 : length out0 = length O)
    by (unfold out0; rewrite update_at_length, repeat_length; reflexivity).
  destruct (in_loop_conserves s e O sl He Hsl Hie HiO Hex
              (length s - (k - 1)) (k - 1) (k' - 1) out0)
    as [out [Hrun [Hlen Hsum]]]; [lia | exact Hlen0 | |].
  - intros Hr.
    apply (initial_entry e O (length s) k k'); try assumption. lia.
  - exists out. rewrite Hrun. repeat split; try assumption.
    rewrite Hsum. unfold out0.
    rewrite Qsum_update_at by (rewrite repeat_length; exact Hm).
    rewrite Qsum_repeat_zero.
    rewrite <- (firstn_skipn (k - 1) s) at 3. rewrite Qsum_app. lra.
Qed.








(** ** Rebinning onto the input edges *)




Section Identity.
Variables (s e : list Q).
Hypothesis edges_length : length e = S (length s).
Hypothesis e_increasing : strictly_increasing e.

Let n := length s.
Let O := removelast e.
Let oe := map Fin O ++ [PInf].
Let sl := map (fun _ : Q => 0) s.




Hypothesis one_bin : (1 <= length s)%nat.

End Identity.

Lemma rebin_arrays_interpolation_default (s e o : list Q) :
  length e = S (length s) ->
  rebin_arrays "interpolation" (FloatArray (Arr1 s)) (Arr1 e) (Arr1 o) None
  = Ok {| ca_warnings := []; ca_spectra := FloatArray (Arr1 s);
          ca_in_edges := Arr1 e;
          ca_slopes := Arr1 (map (fun _ => 0) s) |}.
Proof.
  intros He. unfold rebin_arrays, cast_spectra. simpl String.eqb.
  cbv iota. simpl bind. unfold _check_shape. simpl bind. unfold shape_eqb.
  destruct (list_eq_dec Z.eq_dec _ _) as [_|Hne];
    [|exfalso; apply Hne; f_equal; lia].
  destruct (list_eq_dec Z.eq_dec _ _) as [_|Hne];
    [|exfalso; apply Hne; rewrite length_map; reflexivity].
  reflexivity.
Qed.



(** ** A batch and its rows *)














Lemma check_ndim_ok_1 name : _check_ndim 1 (NdSet [1; 2]%Z) name = Ok tt.
Proof. reflexivity. Qed.








(** ** The generator seen from a later draw *)








(* ================================================================= *)
(** * Further properties of the rebinning code *)

(** ** The cast at the head of the dispatcher *)

Lemma ndim_nd_map {A B} (f : A -> B) (a : ndarray A) : ndim (nd_map f a) = ndim a.
Proof. destruct a; reflexivity. Qed.

Lemma shape_nd_map {A B} (f : A -> B) (a : ndarray A) :
  shape (nd_map f a) = shape a.
Proof. destruct a; simpl; rewrite ?length_map; reflexivity. Qed.

Lemma existsb_false_all {A} (p : A -> bool) (l : list A) :
  (forall x, In x l -> p x = false) -> existsb p l = false.
Proof.
  intros H. destruct (existsb p l) eqn:E; [|reflexivity].
  apply existsb_exists in E. destruct E as [x [Hin Hp]].
  rewrite (H x Hin) in Hp. discriminate.
Qed.

Lemma forallb_false_some {A} (p : A -> bool) (l : list A) (x : A) :
  In x l -> p x = false -> forallb p l = false.
Proof.
  intros Hin Hp. destruct (forallb p l) eqn:E; [|reflexivity].
  rewrite forallb_forall in E. rewrite (E x Hin) in Hp. discriminate.
Qed.

(** Counts that the method accepts are cast without a change of rank or
    shape. *)
Lemma cast_spectra_defined method sp :
  counts_accepted method sp ->
  exists w sp',
    cast_spectra method sp = Ok (w, sp') /\
    num_ndim sp' = num_ndim sp /\ num_shape sp' = num_shape sp.
Proof.
  intros Hacc. unfold cast_spectra.
  destruct (String.eqb_spec method "listmode") as [E|E].
  - destruct (Hacc E) as [Hpos [x [Hx Hx1]]].
    rewrite existsb_false_all
      by (intros y Hy; apply q_ltb_false; apply Hpos; exact Hy).
    rewrite (forallb_false_some _ _ x Hx)
      by (apply q_ltb_false; exact Hx1).
    destruct sp as [a|a].
    + eexists. eexists. split; [reflexivity|]. split; reflexivity.
    + eexists. eexists. split; [reflexivity|]. simpl.
      split; [apply ndim_nd_map | apply shape_nd_map].
  - eexists. eexists. split; [reflexivity|].
    destruct sp as [a|a]; simpl; [|split; reflexivity].
    split; [apply ndim_nd_map | apply shape_nd_map].
Qed.

(** ** Rank and shape errors *)

(** X1.  A spectra array that is neither of rank 1 nor of rank 2 (a
    scalar, a rank-3 stack) is refused with the rebin error on its rank,
    whatever the edges, the slopes and the method, once the counts have
    passed the listmode checks. *)
Theorem rebin_spectra_rank_error
    (rand : nat -> Q) (in_spectra : numarray) (in_edges out_edges : ndarray Q)
    (method : string) (slopes : option (ndarray Q)) (zero_pad_warnings : bool) :
  counts_accepted (lower method) in_spectra ->
  num_ndim in_spectra <> 1%Z -> num_ndim in_spectra <> 2%Z ->
  rebin rand in_spectra in_edges out_edges method slopes zero_pad_warnings
    = Err (RebinError (MsgNotND "in_spectra")) /\
  kind_of (RebinError (MsgNotND "in_spectra")) = Some ShapeError.
Proof.
  intros Hacc H1 H2. split; [|reflexivity].
  destruct (cast_spectra_defined _ _ Hacc) as [w [sp' [Hcast [Hnd _]]]].
  unfold rebin, rebin_arrays. rewrite Hcast. cbn [bind snd fst].
  rewrite Hnd. unfold _check_ndim at 1. unfold py_ne, py_not_in.
  cbn [existsb].
  destruct (Z.eqb_spec (num_ndim in_spectra) 1) as [E|_]; [contradiction|].
  destruct (Z.eqb_spec (num_ndim in_spectra) 2) as [E|_]; [contradiction|].
  reflexivity.
Qed.

Lemma rebin_spectra_rank_error_witness :
  rebin (fun _ => 1 # 2) (FloatArray (Arr0 5)) (Arr1 [0; 1]) (Arr1 [0; 1])
    "interpolation" None true
  = Err (RebinError (MsgNotND "in_spectra")).
Proof.
  apply (rebin_spectra_rank_error (fun _ => 1 # 2) (FloatArray (Arr0 5))
           (Arr1 [0; 1]) (Arr1 [0; 1]) "interpolation" None true).
  - intros H. discriminate.
  - simpl. discriminate.
  - simpl. discriminate.
Defined.

Lemma broadcast_against_single (a : ndarray Q) (n : Z) : _broadcast a [n] = a.
Proof. destruct a; reflexivity. Qed.

Lemma num_shape_single (a : numarray) (n : Z) :
  num_shape a = [n] -> num_ndim a = 1%Z.
Proof.
  destruct a as [a|a]; destruct a; simpl; intros H; try discriminate;
    reflexivity.
Qed.

Lemma check_ndim_in_set n name :
  n = 1%Z \/ n = 2%Z -> _check_ndim n (NdSet [1; 2]%Z) name = Ok tt.
Proof. intros [->| ->]; reflexivity. Qed.

Lemma check_ndim_int_ok name : _check_ndim 1 (NdInt 1) name = Ok tt.
Proof. reflexivity. Qed.

(** The head of [rebin] for one spectrum of [n] bins, up to the shape
    checks. *)
Lemma rebin_arrays_single method sp e oe slopes n :
  counts_accepted method sp -> num_shape sp = [Z.of_nat n] ->
  ndim oe = 1%Z -> slopes_rank_ok slopes ->
  exists w sp',
    cast_spectra method sp = Ok (w, sp') /\ num_shape sp' = [Z.of_nat n] /\
    rebin_arrays method sp (Arr1 e) oe slopes =
    (let m := match slopes with
              | Some m => m
              | None => nd_map (fun _ => 0) (num_values sp')
              end in
     _check_shape [Z.of_nat n] [Z.of_nat (length e)]
       "in_spectra" "in_edges" true ;;;
     _check_shape [Z.of_nat n] (shape m) "in_spectra" "slopes" false ;;;
     Ok {| ca_warnings := w; ca_spectra := sp'; ca_in_edges := Arr1 e;
           ca_slopes := m |}).
Proof.
  intros Hacc Hshape Hoe Hsl.
  destruct (cast_spectra_defined _ _ Hacc) as [w [sp' [Hcast [Hnd Hsh]]]].
  exists w, sp'. split; [exact Hcast|]. rewrite Hshape in Hsh.
  split; [exact Hsh|].
  unfold rebin_arrays. rewrite Hcast. cbn [bind snd fst]. cbv zeta.
  rewrite Hsh, !broadcast_against_single.
  rewrite (num_shape_single _ _ Hsh), Hoe.
  rewrite check_ndim_ok_1, check_ndim_ok_1, check_ndim_int_ok. cbn [bind].
  assert (Hm : _check_ndim
                 (ndim match slopes with
                       | Some m => m
                       | None => nd_map (fun _ => 0) (num_values sp')
                       end) (NdSet [1; 2]%Z) "slopes" = Ok tt).
  { apply check_ndim_in_set. destruct slopes as [m|]; [exact Hsl|].
    left. rewrite ndim_nd_map.
    pose proof (num_shape_single _ _ Hsh) as H1.
    destruct sp' as [a|a]; simpl in H1 |- *;
      [rewrite ndim_nd_map|]; exact H1. }
  rewrite Hm. reflexivity.
Qed.

(** X2.  For one spectrum of [n] bins, input edges that are not [n + 1]
    in number are refused with the rebin error on shapes, naming the
    spectra and the input edges (and whatever the slopes hold). *)
Theorem rebin_edges_count_error
    (rand : nat -> Q) (in_spectra : numarray) (in_edges : list Q)
    (out_edges : ndarray Q) (method : string) (slopes : option (ndarray Q))
    (zero_pad_warnings : bool) (n : nat) :
  counts_accepted (lower method) in_spectra ->
  num_shape in_spectra = [Z.of_nat n] ->
  ndim out_edges = 1%Z -> slopes_rank_ok slopes ->
  length in_edges <> S n ->
  rebin rand in_spectra (Arr1 in_edges) out_edges method slopes
    zero_pad_warnings = Err (RebinError (MsgShape "in_spectra" "in_edges")) /\
  kind_of (RebinError (MsgShape "in_spectra" "in_edges")) = Some ShapeError.
Proof.
  intros Hacc Hshape Hoe Hsl Hlen. split; [|reflexivity].
  destruct (rebin_arrays_single _ _ in_edges _ _ _ Hacc Hshape Hoe Hsl)
    as [w [sp' [_ [_ Harr]]]].
  unfold rebin. rewrite Harr. cbv zeta. unfold _check_shape at 1.
  cbn [bind]. unfold shape_eqb.
  destruct (list_eq_dec Z.eq_dec _ _) as [E|_]; [|reflexivity].
  inversion E. lia.
Qed.

Lemma rebin_edges_count_error_witness :
  rebin (fun _ => 1 # 2) (FloatArray (Arr1 [1; 2; 3])) (Arr1 [0; 1; 2])
    (Arr1 [0; 2]) "interpolation" None true
  = Err (RebinError (MsgShape "in_spectra" "in_edges")).
Proof.
  apply (rebin_edges_count_error (fun _ => 1 # 2) (FloatArray (Arr1 [1; 2; 3]))
           [0; 1; 2] (Arr1 [0; 2]) "interpolation" None true 3).
  - intros H. discriminate.
  - reflexivity.
  - reflexivity.
  - exact I.
  - simpl. discriminate.
Defined.

(** X3.  For one spectrum of [n] bins with [n + 1] input edges, slopes
    whose shape is not that of the spectrum are refused with the rebin
    error on shapes, naming the spectra and the slopes. *)
Theorem rebin_slopes_shape_error
    (rand : nat -> Q) (in_spectra : numarray) (in_edges : list Q)
    (out_edges slopes : ndarray Q) (method : string)
    (zero_pad_warnings : bool) (n : nat) :
  counts_accepted (lower method) in_spectra ->
  num_shape in_spectra = [Z.of_nat n] ->
  ndim out_edges = 1%Z -> ndim slopes = 1%Z \/ ndim slopes = 2%Z ->
  length in_edges = S n ->
  shape slopes <> [Z.of_nat n] ->
  rebin rand in_spectra (Arr1 in_edges) out_edges method (Some slopes)
    zero_pad_warnings = Err (RebinError (MsgShape "in_spectra" "slopes")) /\
  kind_of (RebinError (MsgShape "in_spectra" "slopes")) = Some ShapeError.
Proof.
  intros Hacc Hshape Hoe Hsl Hlen Hbad. split; [|reflexivity].
  destruct (rebin_arrays_single _ _ in_edges _ (Some slopes) _
              Hacc Hshape Hoe Hsl) as [w [sp' [_ [_ Harr]]]].
  unfold rebin. rewrite Harr. cbv zeta. unfold _check_shape.
  cbn [bind]. unfold shape_eqb.
  destruct (list_eq_dec Z.eq_dec _ _) as [_|E];
    [|exfalso; apply E; f_equal; lia].
  destruct (list_eq_dec Z.eq_dec _ _) as [E|_]; [|reflexivity].
  exfalso. apply Hbad. symmetry. exact E.
Qed.

Lemma rebin_slopes_shape_error_witness :
  rebin (fun _ => 1 # 2) (FloatArray (Arr1 [1; 2])) (Arr1 [0; 1; 2])
    (Arr1 [0; 2]) "interpolation" (Some (Arr1 [0; 0; 0])) true
  = Err (RebinError (MsgShape "in_spectra" "slopes")).
Proof.
  apply (rebin_slopes_shape_error (fun _ => 1 # 2) (FloatArray (Arr1 [1; 2]))
           [0; 1; 2] (Arr1 [0; 2]) (Arr1 [0; 0; 0]) "interpolation" true 2).
  - intros H. discriminate.
  - reflexivity.
  - reflexivity.
  - left. reflexivity.
  - reflexivity.
  - simpl. discriminate.
Defined.

(** ** What the monotonicity check accepts *)





(** ** The other listmode refusal *)

(** X5.  With the listmode method a spectrum without a negative value in
    which every value is below one (an empty spectrum included) is refused
    with the all-below-one error, whatever the other arguments. *)
Theorem rebin_listmode_all_below_one
    (rand : nat -> Q) (in_spectra : numarray) (in_edges out_edges : ndarray Q)
    (method : string) (slopes : option (ndarray Q)) (zero_pad_warnings : bool) :
  lower method = "listmode"%string ->
  (forall x, In x (elements (num_values in_spectra)) -> 0 <= x /\ x < 1) ->
  rebin rand in_spectra in_edges out_edges method slopes zero_pad_warnings
    = Err (RebinError MsgAllBelowOne) /\
  kind_of (RebinError MsgAllBelowOne) = Some AllBelowOneError.
Proof.
  intros Hm Hall. split; [|reflexivity].
  unfold rebin, rebin_arrays. rewrite Hm. unfold cast_spectra.
  simpl String.eqb. cbv iota.
  rewrite existsb_false_all
    by (intros y Hy; apply q_ltb_false; apply Hall; exact Hy).
  replace (forallb (fun x => q_ltb x 1) (elements (num_values in_spectra)))
    with true; [reflexivity|].
  symmetry. apply forallb_forall. intros y Hy.
  apply q_ltb_true. apply Hall. exact Hy.
Qed.

Lemma rebin_listmode_all_below_one_witness :
  rebin (fun _ => 1 # 2) (FloatArray (Arr1 [3 # 5; 0; 9 # 10]))
    (Arr1 [0; 1; 2; 3]) (Arr1 [0; 3]) "Listmode" None true
  = Err (RebinError MsgAllBelowOne).
Proof.
  apply (rebin_listmode_all_below_one (fun _ => 1 # 2)
           (FloatArray (Arr1 [3 # 5; 0; 9 # 10])) (Arr1 [0; 1; 2; 3])
           (Arr1 [0; 3]) "Listmode" None true).
  - reflexivity.
  - simpl. intros x [<-|[<-|[<-|[]]]]; split; reflexivity || discriminate.
Defined.

(** ** The line through a bin *)



(** ** One spectrum through the interpolation method *)


Lemma rebin_interpolation_run_default rand s e o method z out :
  lower method = "interpolation"%string ->
  length e = S (length s) ->
  strictly_increasing e -> strictly_increasing o -> (2 <= length o)%nat ->
  hd 0 o < last e 0 -> hd 0 e < last o 0 ->
  _rebin_interpolation_vectorized s e (removelast o) (map (fun _ => 0) s)
    = Ok out ->
  rebin rand (FloatArray (Arr1 s)) (Arr1 e) (Arr1 o) method None z
  = Ok (padding_1d e o z, FloatArray (Arr1 out)).
Proof.
  intros Hm He Hie Hio Hout Hl Hr Hk.
  assert (Hne : e <> []) by (destruct e; discriminate).
  assert (Hno : o <> []) by (destruct o; [simpl in Hout; lia | discriminate]).
  unfold rebin. rewrite Hm.
  rewrite (rebin_arrays_interpolation_default _ _ _ He). cbn [bind].
  cbn [ca_in_edges ca_spectra ca_slopes ca_warnings].
  rewrite (rebin_edges_1d _ _ z Hne Hno Hie Hio Hl Hr). cbn [bind snd fst].
  unfold dispatch. simpl String.eqb. cbv iota.
  unfold _rebin_interpolation. cbn [num_values]. unfold py_init.
  rewrite Hk. reflexivity.
Qed.

Lemma zero_slopes_exact (s : list Q) : Forall slope_exact (map (fun _ => 0) s).
Proof.
  induction s; simpl; constructor; [left; reflexivity | assumption].
Qed.



Lemma padding_left_iff e o z :
  In WarnPadLeft (padding_1d e o z) <-> z = true /\ hd 0 o < hd 0 e.
Proof.
  unfold padding_1d. destruct z;
    [|split; [intros [] | intros [H _]; discriminate]].
  split.
  - intros H. split; [reflexivity|]. apply in_app_or in H.
    destruct H as [H|H].
    + destruct (q_ltb (hd 0 o) (hd 0 e)) eqn:E;
        [apply q_ltb_true, E | inversion H].
    + destruct (q_ltb (last e 0) (last o 0)); simpl in H;
        [destruct H as [H|[]]; discriminate | inversion H].
  - intros [_ H]. apply in_or_app. left.
    rewrite (proj2 (q_ltb_true _ _) H). left. reflexivity.
Qed.

Lemma padding_right_iff e o z :
  In WarnPadRight (padding_1d e o z) <-> z = true /\ last e 0 < last o 0.
Proof.
  unfold padding_1d. destruct z;
    [|split; [intros [] | intros [H _]; discriminate]].
  split.
  - intros H. split; [reflexivity|]. apply in_app_or in H.
    destruct H as [H|H].
    + destruct (q_ltb (hd 0 o) (hd 0 e)); simpl in H;
        [destruct H as [H|[]]; discriminate | inversion H].
    + destruct (q_ltb (last e 0) (last o 0)) eqn:E;
        [apply q_ltb_true, E | inversion H].
  - intros [_ H]. apply in_or_app. right.
    rewrite (proj2 (q_ltb_true _ _) H). left. reflexivity.
Qed.

Lemma padding_no_precision_loss e o z :
  ~ In WarnPrecisionLoss (padding_1d e o z).
Proof.
  unfold padding_1d. destruct z; [|intros []].
  intros H. apply in_app_or in H. destruct H as [H|H].
  - destruct (q_ltb (hd 0 o) (hd 0 e)); simpl in H;
      [destruct H as [H|[]]; discriminate | inversion H].
  - destruct (q_ltb (last e 0) (last o 0)); simpl in H;
      [destruct H as [H|[]]; discriminate | inversion H].
Qed.

(** X9.  For one spectrum rebinned by interpolation with the default
    slopes onto overlapping edges, the warning of padding on the left is
    raised exactly when warnings are on and the first output edge is below
    the first input edge, the warning of padding on the right exactly when
    warnings are on and the last output edge is above the last input edge;
    no other warning is raised. *)
Theorem rebin_padding_warnings
    (rand : nat -> Q) (in_spectrum in_edges out_edges : list Q)
    (method : string) (zero_pad_warnings : bool) :
  lower method = "interpolation"%string ->
  length in_edges = S (length in_spectrum) ->
  strictly_increasing in_edges -> strictly_increasing out_edges ->
  (2 <= length out_edges)%nat ->
  hd 0 out_edges < last in_edges 0 -> hd 0 in_edges < last out_edges 0 ->
  exists warnings rebinned,
    rebin rand (FloatArray (Arr1 in_spectrum)) (Arr1 in_edges)
      (Arr1 out_edges) method None zero_pad_warnings
      = Ok (warnings, rebinned) /\
    (In WarnPadLeft warnings <->
     zero_pad_warnings = true /\ hd 0 out_edges < hd 0 in_edges) /\
    (In WarnPadRight warnings <->
     zero_pad_warnings = true /\ last in_edges 0 < last out_edges 0) /\
    ~ In WarnPrecisionLoss warnings.
Proof.
  intros Hm He Hie Hio Hout Hl Hr.
  destruct (interpolation_kernel_conserves in_spectrum in_edges
              (removelast out_edges) (map (fun _ => 0) in_spectrum) He
              (length_map _ _) (removelast_nonempty _ Hout) Hie
              (strictly_increasing_removelast _ Hio)
              (zero_slopes_exact in_spectrum))
    as [out [Hk _]].
  exists (padding_1d in_edges out_edges zero_pad_warnings),
         (FloatArray (Arr1 out)).
  split; [apply rebin_interpolation_run_default; assumption|].
  split; [apply padding_left_iff|].
  split; [apply padding_right_iff | apply padding_no_precision_loss].
Qed.

Lemma rebin_padding_warnings_witness :
  exists warnings rebinned,
    rebin (fun _ => 1 # 2) (FloatArray (Arr1 [10; 10; 10]))
      (Arr1 [0; 1; 2; 3]) (Arr1 [-1; 1; 5 # 2]) "interpolation" None true
      = Ok (warnings, rebinned) /\
    (In WarnPadLeft warnings <-> true = true /\ hd 0 [-1; 1; 5 # 2] < hd 0 [0; 1; 2; 3]) /\
    (In WarnPadRight warnings <->
     true = true /\ last [0; 1; 2; 3] 0 < last [-1; 1; 5 # 2] 0) /\
    ~ In WarnPrecisionLoss warnings.
Proof.
  apply (rebin_padding_warnings (fun _ => 1 # 2) [10; 10; 10] [0; 1; 2; 3]
           [-1; 1; 5 # 2] "interpolation" true).
  - reflexivity.
  - reflexivity.
  - simpl. repeat split; reflexivity.
  - simpl. repeat split; reflexivity.
  - simpl. lia.
  - reflexivity.
  - reflexivity.
Defined.

(** ** The method is looked at last *)

Lemma shape_num_values (a : numarray) : shape (num_values a) = num_shape a.
Proof. destruct a as [a|a]; simpl; [apply shape_nd_map | reflexivity]. Qed.

(** X6.  A method name that is neither "interpolation" nor "listmode"
    (in any casing) is reported only after the arrays and the edges have
    passed every check: for one valid spectrum the call ends on the
    unknown-method exception, which carries the lower-cased name. *)
Theorem rebin_unknown_method
    (rand : nat -> Q) (in_spectra : numarray) (in_edges out_edges : list Q)
    (method : string) (zero_pad_warnings : bool) (n : nat) :
  lower method <> "interpolation"%string ->
  lower method <> "listmode"%string ->
  num_shape in_spectra = [Z.of_nat n] ->
  length in_edges = S n ->
  strictly_increasing in_edges -> strictly_increasing out_edges ->
  out_edges <> [] ->
  hd 0 out_edges < last in_edges 0 -> hd 0 in_edges < last out_edges 0 ->
  rebin rand in_spectra (Arr1 in_edges) (Arr1 out_edges) method None
    zero_pad_warnings = Err (InvalidMethod (lower method)) /\
  kind_of (InvalidMethod (lower method)) = Some UnknownMethodError.
Proof.
  intros Hi Hl Hshape He Hie Hio Ho Hleft Hright. split; [|reflexivity].
  assert (Hne : in_edges <> []) by (destruct in_edges; discriminate).
  destruct (rebin_arrays_single (lower method) in_spectra in_edges
              (Arr1 out_edges) None n)
    as [w [sp' [_ [Hsh Harr]]]];
    [intros H; contradiction | exact Hshape | reflexivity | exact I |].
  unfold rebin. rewrite Harr. cbv zeta.
  rewrite shape_nd_map, shape_num_values, Hsh.
  unfold _check_shape. cbn [bind]. unfold shape_eqb.
  destruct (list_eq_dec Z.eq_dec _ _) as [_|E];
    [|exfalso; apply E; f_equal; lia].
  destruct (list_eq_dec Z.eq_dec _ _) as [_|E];
    [|exfalso; apply E; reflexivity].
  cbn [bind ca_in_edges ca_spectra ca_slopes ca_warnings].
  rewrite (rebin_edges_1d _ _ zero_pad_warnings Hne Ho Hie Hio Hleft Hright).
  cbn [bind snd fst]. unfold dispatch.
  destruct (String.eqb_spec (lower method) "interpolation"); [contradiction|].
  destruct (String.eqb_spec (lower method) "listmode"); [contradiction|].
  reflexivity.
Qed.

Lemma rebin_unknown_method_witness :
  rebin (fun _ => 1 # 2) (IntArray (Arr1 [1; 2]%Z)) (Arr1 [0; 1; 2])
    (Arr1 [0; 2]) "Spline" None true = Err (InvalidMethod "spline").
Proof.
  apply (rebin_unknown_method (fun _ => 1 # 2) (IntArray (Arr1 [1; 2]%Z))
           [0; 1; 2] [0; 2] "Spline" true 2).
  - discriminate.
  - discriminate.
  - reflexivity.
  - reflexivity.
  - simpl. repeat split; reflexivity.
  - simpl. repeat split; reflexivity.
  - discriminate.
  - reflexivity.
  - reflexivity.
Defined.

(** ** Output bins outside the input range *)






Section Padding.
Variables (s e O sl : list Q).
Hypothesis edges_length : length e = S (length s).
Hypothesis slopes_length : length sl = length s.
Hypothesis e_increasing : strictly_increasing e.
Hypothesis O_increasing : strictly_increasing O.

Let n := length s.
Let m := length O.
Let oe := map Fin O ++ [PInf].


Hypothesis one_out_bin : O <> [].

End Padding.





(** ** Listmode on float counts *)
















(** ** Non-negative counts stay non-negative *)







Section NonNegative.
Variable O : list Q.
Hypothesis O_increasing : strictly_increasing O.

Let m := length O.
Let oe := map Fin O ++ [PInf].

End NonNegative.

Section NonNegativeKernel.
Variables (s e O : list Q).
Hypothesis edges_length : length e = S (length s).
Hypothesis e_increasing : strictly_increasing e.
Hypothesis O_increasing : strictly_increasing O.
Hypothesis counts_nonneg : Forall (fun c => 0 <= c) s.

Let n := length s.
Let m := length O.
Let oe := map Fin O ++ [PInf].
Let sl := map (fun _ : Q => 0) s.


Hypothesis one_out_bin : O <> [].

End NonNegativeKernel.



(** ** Listmode onto the input edges *)











Section EventsInBins.
Variables (rand : nat -> Q) (s : list Z) (e : list Q).
Hypothesis edges_length : length e = S (length s).
Hypothesis counts_nonneg : Forall (fun c => (0 <= c)%Z) s.
Hypothesis draws_in_unit : forall k, 0 <= rand k /\ rand k < 1.
Hypothesis edges_increase : strictly_increasing e.


End EventsInBins.





(** ** A batch over shared edges *)









